(** * Virtual-table checks of [source/scpp/extra/DVTableChecks.cpp]

    A shallow embedding of the C++ helpers that inspect the virtual
    dispatch table of a live object ([getVirtualMethodCount],
    [getVirtualMethodCountSCPDriver], [doCheckMethodPoint]) together
    with the scaffolding classes [A], [B] and [VTSCPDriver].

    The target is LP64: [long], [unsigned long] and pointers are 64 bits
    wide, [int] is 32 bits wide.  Memory is seen as 8-byte words found
    at byte addresses; reading a word that is not mapped is undefined
    behaviour. *)

From Stdlib Require Import ZArith List String Bool Lia.
Import ListNotations.
Local Open Scope string_scope.
Local Open Scope list_scope.
Local Open Scope Z_scope.

(** ** The machine: words, memory, program state and a small monad *)

Module Machine.

(** [unsigned long] arithmetic wraps modulo 2^64. *)
Definition wrap64 (z : Z) : Z := z mod 2 ^ 64.

(** [int] arithmetic on the values used here stays in range; the
    conversion to a 32-bit two's complement value is written out. *)
Definition wrap32s (z : Z) : Z := (z + 2 ^ 31) mod 2 ^ 32 - 2 ^ 31.

(** The value of a 64-bit word read as a (signed) [long]. *)
Definition as_long (w : Z) : Z := (w + 2 ^ 63) mod 2 ^ 64 - 2 ^ 63.

(** A byte address mapped to the 8-byte word stored there. *)
Definition memory := Z -> option Z.

Definition empty_memory : memory := fun _ => None.

Definition write (m : memory) (a v : Z) : memory :=
  fun a' => if a' =? a then Some v else m a'.

(** What [printf] sends to standard output: the format string and the
    integer printed for its single [%d]. *)
Inductive event : Type :=
| Printf (format : string) (arg : Z).

Record state : Type := mkState {
  mem : memory;          (* contents of the address space *)
  brk : Z;               (* next address handed out by [new] *)
  out : list event       (* standard output, oldest first *)
}.

Inductive undefined : Type :=
| UnmappedRead (addr : Z)   (* dereference outside any object *)
| MissingReturn.            (* end of a non-void function reached *)

Inductive outcome (A : Type) : Type :=
| Ret (a : A) (s : state)
| Undefined (why : undefined)
| OutOfFuel.
Arguments Ret {A} a s.
Arguments Undefined {A} why.
Arguments OutOfFuel {A}.

Definition M (A : Type) : Type := state -> outcome A.

Definition ret {A} (a : A) : M A := fun s => Ret a s.

Definition bind {A B} (c : M A) (k : A -> M B) : M B :=
  fun s => match c s with
           | Ret a s' => k a s'
           | Undefined why => Undefined why
           | OutOfFuel => OutOfFuel
           end.

Definition load (a : Z) : M Z :=
  fun s => match mem s a with
           | Some v => Ret v s
           | None => Undefined (UnmappedRead a)
           end.

Definition store (a v : Z) : M unit :=
  fun s => Ret tt (mkState (write (mem s) a v) (brk s) (out s)).

(** [operator new]: hands out [size] fresh bytes (a multiple of 8).  The
    model places the blocks one after another; a real allocator is free
    to space them out. *)
Definition alloc (size : Z) : M Z :=
  fun s => Ret (brk s) (mkState (mem s) (brk s + size) (out s)).

Definition printf (format : string) (arg : Z) : M unit :=
  fun s => Ret tt (mkState (mem s) (brk s) (out s ++ [Printf format arg])).

Definition missing_return {A} : M A := fun _ => Undefined MissingReturn.

End Machine.
Import Machine.

Notation "x <- c ;; k" := (bind c (fun x => k))
  (at level 61, c at next level, right associativity).
Notation "c ;;; k" := (bind c (fun _ => k))
  (at level 61, right associativity).

(** ** The slot counter *)

(** The loop [for (idx = 0; vtable[0][idx] != 0; idx++);] from [idx] on:
    [vtable] is the address of the object, [vtable[0]] its first word,
    that is the address of the dispatch table, and [idx] is an
    [unsigned long]. *)
Fixpoint count_loop (fuel : nat) (vtable idx : Z) : M Z :=
  match fuel with
  | O => fun _ => OutOfFuel
  | S fuel' =>
      vtable0 <- load vtable ;;
      slot <- load (vtable0 + 8 * idx) ;;
      if negb (slot =? 0)
      then count_loop fuel' vtable (wrap64 (idx + 1))
      else ret idx
  end.

(** [template <class T> unsigned long getVirtualMethodCount(T& t)]:
    [t] is the address of the object. *)
Definition getVirtualMethodCount (fuel : nat) (t : Z) : M Z :=
  let vtable := t in
  let idx := 0 in
  count_loop fuel vtable idx.

(** A dispatch table found in memory from slot [i] on: the words of
    [entries], none of them zero, followed by the zero sentinel. *)
Fixpoint table_from (m : memory) (vptr i : Z) (entries : list Z) : bool :=
  match entries with
  | [] => match m (vptr + 8 * i) with
          | Some v => v =? 0
          | None => false
          end
  | e :: rest =>
      match m (vptr + 8 * i) with
      | Some v => (v =? e) && negb (e =? 0) && table_from m vptr (i + 1) rest
      | None => false
      end
  end.

Definition dispatch_table (m : memory) (vptr : Z) (entries : list Z) : bool :=
  table_from m vptr 0 entries.

(** A fully constructed polymorphic instance at address [t]: its first
    word points to a zero-terminated dispatch table holding [entries]. *)
Definition polymorphic_instance (m : memory) (t : Z) (entries : list Z) : bool :=
  match m t with
  | Some vptr => dispatch_table m vptr entries
  | None => false
  end.

(** Writing a table (entries, then the sentinel) at [vptr]. *)
Fixpoint install_table (m : memory) (vptr : Z) (entries : list Z) : memory :=
  match entries with
  | [] => write m vptr 0
  | e :: rest => install_table (write m vptr e) (vptr + 8) rest
  end.

(** ** Classes and their dispatch tables *)

(** A class without a base, or derived from one public base: its name,
    its data members with their default initialisers, its non-virtual
    member functions and the virtual member functions it declares, in
    declaration order. *)
Inductive cxx_class : Type :=
| Class (name : string)
        (fields : list (string * Z)) (methods : list string)
        (virtuals : list string)
| Derived (name : string) (base : cxx_class)
        (fields : list (string * Z)) (methods : list string)
        (virtuals : list string).

(** [class A] and [class B : public A] of the source. *)
Definition A : cxx_class :=
  Class "A" [("n1", 1)] ["func1"] ["vfunc1"; "vfunc2"].

Definition B : cxx_class :=
  Derived "B" A [("n2", 2)] ["func2"] ["vfunc3"; "vfunc4"].

Definition declared_virtuals (c : cxx_class) : list string :=
  match c with
  | Class _ _ _ virtuals => virtuals
  | Derived _ _ _ _ virtuals => virtuals
  end.

Definition mentions (f : string) (slots : list string) : bool :=
  existsb (String.eqb f) slots.

(** Modelled from the spec: the compiler's table layout, which the source
    relies on and does not contain.  Slot order is stable and follows
    declaration order along the inheritance chain: the slots of the base
    come first, an override keeps the slot it overrides, and the newly
    declared virtual functions follow. *)
Fixpoint vtable_slots (c : cxx_class) : list string :=
  match c with
  | Class _ _ _ virtuals => virtuals
  | Derived _ base _ _ virtuals =>
      let inherited := vtable_slots base in
      inherited ++ filter (fun f => negb (mentions f inherited)) virtuals
  end.

(** The slots a class takes from its base, and those it adds. *)
Definition inherited_slots (c : cxx_class) : list string :=
  match c with
  | Class _ _ _ _ => []
  | Derived _ base _ _ _ => vtable_slots base
  end.

Definition new_slots (c : cxx_class) : list string :=
  filter (fun f => negb (mentions f (inherited_slots c))) (declared_virtuals c).


Fixpoint slot_index (f : string) (slots : list string) : option Z :=
  match slots with
  | [] => None
  | g :: rest =>
      if String.eqb f g then Some 0
      else option_map Z.succ (slot_index f rest)
  end.

(** Modelled from the spec: the encoding of a pointer to a virtual member
    function, [rawValue = index * pointerWidth + 1]; it is produced by
    the compiler, which the source does not contain. *)
Definition encode (index pointerWidth : Z) : Z := index * pointerWidth + 1.

(** What the source takes from its compiler: the first word of the
    representation of [&C::f], and the address of the dispatch table of
    each class. *)
Record compiler : Type := mkCompiler {
  member_pointer : cxx_class -> string -> Z;
  vtable_address : cxx_class -> Z
}.

(** A compiler that follows the encoding above with 8-byte pointers; a
    function that has no slot is a direct (even) code address. *)
Definition tagging_compiler (vtables : cxx_class -> Z) : compiler :=
  mkCompiler
    (fun c f => match slot_index f (vtable_slots c) with
                | Some i => encode i 8
                | None => 0
                end)
    vtables.

(** ** The member-pointer check *)

(** [new B()]: 16 bytes, the table pointer in the first word, then the
    [int] members [n1 = 1] and [n2 = 2] sharing the second word
    (little-endian). *)
Definition new_B (cc : compiler) : M Z :=
  p <- alloc 16 ;;
  store p (vtable_address cc B) ;;;
  store (p + 8) (1 + 2 * 2 ^ 32) ;;;
  ret p.

(** The line feed that ends each format string. *)
Definition newline : string := String (Ascii.ascii_of_nat 10) EmptyString.

Notation "s +++ t" := (String.append s t) (at level 60, right associativity).

(** [int doCheckMethodPoint ()]. *)
Definition doCheckMethodPoint (cc : compiler) : M Z :=
  table <- new_B cc ;;
  pvftable <- load table ;;
  let bfunc1 := member_pointer cc B "vfunc1" in
  if negb (as_long bfunc1 =? 1) then ret 1 else
  let bfunc2 := member_pointer cc B "vfunc2" in
  if negb (as_long bfunc2 =? 9) then ret 9 else
  let bfunc3 := member_pointer cc B "vfunc3" in
  if negb (as_long bfunc3 =? 17) then ret 17 else
  let bfunc4 := member_pointer cc B "vfunc4" in
  if negb (as_long bfunc4 =? 25) then ret 25 else
  printf ("B.vfunc1    :   %d" +++ newline) (member_pointer cc B "vfunc1") ;;;
  printf ("B.vfunc2    :   %d" +++ newline) (member_pointer cc B "vfunc2") ;;;
  printf ("B.vfunc3    :   %d" +++ newline) (member_pointer cc B "vfunc3") ;;;
  printf ("B.vfunc4    :   %d" +++ newline) (member_pointer cc B "vfunc4") ;;;
  ret 0.

(** ** The scaffolding driver *)

(** The body of a member function with a result: expression statements,
    whose value is dropped, and [return] statements. *)
Inductive stmt (R : Type) : Type :=
| Discard (value : R)
| Return (value : R).
Arguments Discard {R} value.
Arguments Return {R} value.

(** Control reaching the closing brace of a function that returns a
    value is undefined behaviour. *)
Fixpoint run_body {R} (body : list (stmt R)) : M R :=
  match body with
  | [] => missing_return
  | Discard _ :: rest => run_body rest
  | Return value :: _ => ret value
  end.

(** [std::chrono::milliseconds], as its tick count. *)
Definition milliseconds : Type := Z.

Module VTSCPDriver.

(** [uint64 computeHashNode(...) { return 0L; }] *)
Definition computeHashNode (slotIndex : Z) (isPriority : bool)
    (roundNumber : Z) : M Z :=
  run_body [Return 0].

(** [uint64 computeValueHash(...) { return 0L; }] *)
Definition computeValueHash (slotIndex roundNumber : Z) : M Z :=
  run_body [Return 0].

(** [std::chrono::milliseconds computeTimeout(uint32 roundNumber)
      { std::chrono::milliseconds(100); }] *)
Definition computeTimeout (roundNumber : Z) : M milliseconds :=
  run_body [Discard 100].

End VTSCPDriver.

(** [unsigned long getVirtualMethodCountSCPDriver ()].  The local
    [VTSCPDriver scpDriver(nodeID, qSet)] is built by constructors that
    the source does not contain; its address is a parameter. *)
Definition getVirtualMethodCountSCPDriver (fuel : nat) (scpDriver : Z) : M Z :=
  let inheritance_depth := 2 in
  let default_vmcount := 2 in
  let total_default_vmcount := wrap32s (inheritance_depth * default_vmcount) in
  n <- getVirtualMethodCount fuel scpDriver ;;
  ret (wrap64 (n - wrap64 total_default_vmcount)).

(** ** The decoder and the validator of the specification *)

Inductive decode_error : Type :=
| NotAVirtualMemberPointer.

(** Modelled from the spec: [decodeSlot], which the source does not
    contain (it only compares raw values with constants).  The index is
    [(rawValue - 1) / pointerWidth]; it is accepted when [rawValue] is
    odd, [rawValue - 1] is an exact multiple of [pointerWidth] and the
    quotient is not negative. *)
Definition decodeSlot (rawValue pointerWidth : Z) : decode_error + Z :=
  let index := (rawValue - 1) / pointerWidth in
  if Z.odd rawValue
     && ((rawValue - 1) mod pointerWidth =? 0)
     && (0 <=? index)
  then inr index
  else inl NotAVirtualMemberPointer.

Record InheritanceShapeDescriptor : Type := mkShape {
  chainDepth : Z;
  baselinePerLevel : Z
}.

(** Modelled from the spec: [validate], the comparison that a caller of
    [getVirtualMethodCountSCPDriver] makes and that the source does not
    contain.  [observed = countSlots(instance)],
    [attributable = observed - chainDepth * baselinePerLevel], and the
    result is [attributable == expectedInterfaceSlots]. *)
Definition validate (fuel : nat) (instance : Z)
    (descriptor : InheritanceShapeDescriptor)
    (expectedInterfaceSlots : Z) : M bool :=
  observed <- getVirtualMethodCount fuel instance ;;
  let attributable :=
    observed - chainDepth descriptor * baselinePerLevel descriptor in
  ret (attributable =? expectedInterfaceSlots).





(** The raw values of the pointers to the given member functions. *)
Definition raw_values (cc : compiler) (c : cxx_class) (fs : list string) : list Z :=
  map (fun f => as_long (member_pointer cc c f)) fs.

(** A program image: one dispatch table at [vptr] and one object at [t]
    whose first word points to it. *)
Definition image (vptr : Z) (entries : list Z) (t : Z) : state :=
  mkState (write (install_table empty_memory vptr entries) t vptr) 65536 [].

(** Result and final state of a run, when there is one. *)
Definition result {R} (o : outcome R) : option R :=
  match o with Ret a _ => Some a | _ => None end.

Definition final {R} (o : outcome R) : option state :=
  match o with Ret _ s => Some s | _ => None end.

(** Every slot before index [n] is mapped and holds a word that is not
    zero. *)
Fixpoint nonzero_below (m : memory) (vptr : Z) (n : nat) : bool :=
  match n with
  | O => true
  | S k =>
      nonzero_below m vptr k
      && match m (vptr + 8 * Z.of_nat k) with
         | Some v => negb (v =? 0)
         | None => false
         end
  end.

(** The first zero slot of the table at [vptr] is the one at index [n]. *)
Definition sentinel_at (m : memory) (vptr : Z) (n : nat) : bool :=
  nonzero_below m vptr n
  && match m (vptr + 8 * Z.of_nat n) with
     | Some v => v =? 0
     | None => false
     end.

(** Slot [j] of the table at [vptr] is mapped and holds a word other
    than zero. *)
Definition nonzero_slot (m : memory) (vptr j : Z) : Prop :=
  exists v, m (vptr + 8 * j) = Some v /\ v <> 0.

(** A table without a sentinel: every slot an [unsigned long] can index
    is mapped and holds a word that is not zero. *)
Definition no_sentinel (m : memory) (vptr : Z) : Prop :=
  forall i, 0 <= i < 2 ^ 64 -> exists v, m (vptr + 8 * i) = Some v /\ v <> 0.

(** A memory in which every word is mapped and holds 1. *)
Definition all_ones : memory := fun _ => Some 1.

(** The state in which [new B()] leaves the machine. *)
Definition after_new_B (cc : compiler) (st : state) : state :=
  mkState (write (write (mem st) (brk st) (vtable_address cc B))
                 (brk st + 8) (1 + 2 * 2 ^ 32))
          (brk st + 16) (out st).

(** The first comparison of [doCheckMethodPoint] that fails, as the
    constant it returns then, or 0 when all four hold. *)
Definition first_mismatch (cc : compiler) : Z :=
  if negb (as_long (member_pointer cc B "vfunc1") =? 1) then 1 else
  if negb (as_long (member_pointer cc B "vfunc2") =? 9) then 9 else
  if negb (as_long (member_pointer cc B "vfunc3") =? 17) then 17 else
  if negb (as_long (member_pointer cc B "vfunc4") =? 25) then 25 else 0.

(** The four lines that [doCheckMethodPoint] prints. *)
Definition report (cc : compiler) : list event :=
  [Printf ("B.vfunc1    :   %d" +++ newline) (member_pointer cc B "vfunc1");
   Printf ("B.vfunc2    :   %d" +++ newline) (member_pointer cc B "vfunc2");
   Printf ("B.vfunc3    :   %d" +++ newline) (member_pointer cc B "vfunc3");
   Printf ("B.vfunc4    :   %d" +++ newline) (member_pointer cc B "vfunc4")].

(** Where the examples place the dispatch tables and the code. *)
Definition vtables_at_4096 : cxx_class -> Z := fun _ => 4096.

Definition code_of_B : list Z := [4198400; 4198416; 4198432; 4198448].

Definition code_of_TwoLevel : list Z :=
  [4198400; 4198416; 4198432; 4198448; 4198464; 4198480].

(** A compiler that would give the two slots [B] adds the raw values 1
    and 9. *)
Definition renumbering_compiler : compiler :=
  mkCompiler
    (fun c f => if String.eqb f "vfunc3" then 1
                else if String.eqb f "vfunc4" then 9
                else member_pointer (tagging_compiler vtables_at_4096) c f)
    vtables_at_4096.

(** ** The data members of [A] and [B] *)

(** The second word of a [B] holds the two [int] members: [A::n1] in
    its low half (offset 8) and [B::n2] in its high half (offset 12). *)
Definition low_half (w : Z) : Z := w mod 2 ^ 32.

Definition high_half (w : Z) : Z := (w / 2 ^ 32) mod 2 ^ 32.

Definition set_low (w v : Z) : Z := w - low_half w + v mod 2 ^ 32.

Definition set_high (w v : Z) : Z :=
  w - high_half w * 2 ^ 32 + (v mod 2 ^ 32) * 2 ^ 32.

(** The values of [n1] and [n2] of the object at [this]. *)
Definition read_n1 (this : Z) : M Z :=
  w <- load (this + 8) ;; ret (wrap32s (low_half w)).

Definition read_n2 (this : Z) : M Z :=
  w <- load (this + 8) ;; ret (wrap32s (high_half w)).

(** A run that may also stop at the overflow of a signed [int], which is
    undefined behaviour. *)
Inductive checked (R : Type) : Type :=
| Within (o : outcome R)
| SignedOverflow.
Arguments Within {R} o.
Arguments SignedOverflow {R}.

(** [n++] on an [int]. *)
Definition increment (n : Z) : option Z :=
  if n <? 2 ^ 31 - 1 then Some (n + 1) else None.

(** [void A::func1() { n1++; }] *)
Definition func1 (this : Z) (st : state) : checked unit :=
  match load (this + 8) st with
  | Ret w s =>
      match increment (wrap32s (low_half w)) with
      | Some n1 => Within (store (this + 8) (set_low w n1) s)
      | None => SignedOverflow
      end
  | Undefined why => Within (Undefined why)
  | OutOfFuel => Within OutOfFuel
  end.

(** [void B::func2() { n2++; }] *)
Definition func2 (this : Z) (st : state) : checked unit :=
  match load (this + 8) st with
  | Ret w s =>
      match increment (wrap32s (high_half w)) with
      | Some n2 => Within (store (this + 8) (set_high w n2) s)
      | None => SignedOverflow
      end
  | Undefined why => Within (Undefined why)
  | OutOfFuel => Within OutOfFuel
  end.

(** One call after another, for calls that may overflow. *)
Definition and_then (f g : state -> checked unit) (st : state) : checked unit :=
  match f st with
  | Within (Ret _ s) => g s
  | other => other
  end.

(** The state a checked call ends in, when it returns. *)
Definition ends_in (c : checked unit) : option state :=
  match c with
  | Within (Ret _ s) => Some s
  | _ => None
  end.

(** Two states with the same memory contents, heap top and output. *)
Definition same_state (s1 s2 : state) : Prop :=
  (forall a, mem s1 a = mem s2 a) /\ brk s1 = brk s2 /\ out s1 = out s2.

(** ** Callers *)

(** The address that the next [new] returns. *)
Definition heap_top : M Z := fun s => Ret (brk s) s.

(** [doCheckMethodPoint] called [n] times in a row: for each call, in
    call order, the address of the [B] that the call builds and the
    result of the call. *)
Fixpoint repeat_check (n : nat) (cc : compiler) : M (list (Z * Z)) :=
  match n with
  | O => ret []
  | S k =>
      p <- heap_top ;;
      r <- doCheckMethodPoint cc ;;
      rest <- repeat_check k cc ;;
      ret ((p, r) :: rest)
  end.

(** The 16-byte blocks at the addresses [ps] do not overlap. *)
Definition blocks_apart (ps : list Z) : Prop :=
  forall i j p q,
    nth_error ps i = Some p -> nth_error ps j = Some q -> i <> j ->
    p + 16 <= q \/ q + 16 <= p.

(** The blocks at [ps] follow one another, none below [lo]. *)
Fixpoint spaced (lo : Z) (ps : list Z) : Prop :=
  match ps with
  | [] => True
  | p :: rest => lo <= p /\ spaced (p + 16) rest
  end.

(** [new B()] followed by [getVirtualMethodCount] on the new object. *)
Definition count_new_B (fuel : nat) (cc : compiler) : M Z :=
  table <- new_B cc ;;
  getVirtualMethodCount fuel table.

(** [doCheckMethodPoint] followed by [getVirtualMethodCount] on an
    object that was there before. *)
Definition check_then_count (fuel : nat) (cc : compiler) (t : Z) : M (Z * Z) :=
  r <- doCheckMethodPoint cc ;;
  n <- getVirtualMethodCount fuel t ;;
  ret (r, n).

(** The raw values that [doCheckMethodPoint] expects, in the order of
    its comparisons, and those the compiler gives. *)
Definition expected_raws : list Z := [1; 9; 17; 25].

Definition checked_raws (cc : compiler) : list Z :=
  raw_values cc B ["vfunc1"; "vfunc2"; "vfunc3"; "vfunc4"].

(** No slot of the table of [n] entries (and its sentinel) at [vptr] is
    one of the two words at [p] and [p + 8]. *)
Definition apart (vptr : Z) (n : nat) (p : Z) : Prop :=
  forall j, 0 <= j <= Z.of_nat n ->
    vptr + 8 * j <> p /\ vptr + 8 * j <> p + 8.

(** * Properties *)

(** ** The monad *)

Lemma bind_ret_inv {R S} (c : M R) (k : R -> M S) st b st' :
  bind c k st = Ret b st' ->
  exists a st1, c st = Ret a st1 /\ k a st1 = Ret b st'.
Proof.
  unfold bind. destruct (c st) as [a st1| |]; try discriminate.
  intros H. exists a, st1. split; [reflexivity | exact H].
Qed.

Lemma load_inv a st v st' :
  load a st = Ret v st' -> st' = st /\ mem st a = Some v.
Proof.
  unfold load. destruct (mem st a); intros H; inversion H; subst; auto.
Qed.

Lemma wrap64_small z : 0 <= z < 2 ^ 64 -> wrap64 z = z.
Proof. intros H. unfold wrap64. apply Z.mod_small. exact H. Qed.

(** ** The scan *)

Section Scan.

(** The object at [t] in state [st], and the table its first word
    points to. *)
Variables (st : state) (t vptr : Z).
Hypothesis first_word : mem st t = Some vptr.

Lemma count_loop_step fuel i v :
  mem st (vptr + 8 * i) = Some v -> v <> 0 ->
  count_loop (S fuel) t i st = count_loop fuel t (wrap64 (i + 1)) st.
Proof.
  intros Hm Hv. cbn [count_loop]. unfold bind, load.
  rewrite first_word, Hm.
  apply Z.eqb_neq in Hv. rewrite Hv. reflexivity.
Qed.

Lemma count_loop_stop fuel i :
  mem st (vptr + 8 * i) = Some 0 ->
  count_loop (S fuel) t i st = Ret i st.
Proof.
  intros Hm. cbn [count_loop]. unfold bind, load.
  rewrite first_word, Hm. reflexivity.
Qed.

(** From slot [i], with the sentinel [k] slots ahead, the scan returns
    the index of the sentinel as soon as it may make [k + 1] tests. *)
Lemma count_loop_reaches k : forall fuel i,
  0 <= i -> i + Z.of_nat k < 2 ^ 64 ->
  (forall j, i <= j < i + Z.of_nat k -> nonzero_slot (mem st) vptr j) ->
  mem st (vptr + 8 * (i + Z.of_nat k)) = Some 0 ->
  (k < fuel)%nat ->
  count_loop fuel t i st = Ret (i + Z.of_nat k) st.
Proof.
  induction k as [|k IH]; intros fuel i Hi Hn Hnz Hz Hf;
    (destruct fuel as [|fuel]; [lia|]).
  - replace (i + Z.of_nat 0) with i in * by lia.
    apply count_loop_stop. exact Hz.
  - destruct (Hnz i) as [v [Hv Hv0]]; [lia|].
    rewrite (count_loop_step _ _ v Hv Hv0).
    rewrite wrap64_small by lia.
    replace (i + Z.of_nat (S k)) with ((i + 1) + Z.of_nat k) in * by lia.
    apply IH; try lia.
    + intros j Hj. apply Hnz. lia.
    + exact Hz.
Qed.

(** With fewer tests than that, the scan is cut short. *)
Lemma count_loop_starves fuel : forall k i,
  0 <= i -> i + Z.of_nat k < 2 ^ 64 ->
  (forall j, i <= j < i + Z.of_nat k -> nonzero_slot (mem st) vptr j) ->
  (fuel <= k)%nat ->
  count_loop fuel t i st = OutOfFuel.
Proof.
  induction fuel as [|fuel IH]; intros k i Hi Hn Hnz Hf.
  - reflexivity.
  - destruct k as [|k]; [lia|].
    destruct (Hnz i) as [v [Hv Hv0]]; [lia|].
    rewrite (count_loop_step _ _ v Hv Hv0).
    rewrite wrap64_small by lia.
    apply (IH k); try lia.
    intros j Hj. apply Hnz. lia.
Qed.

(** Without a sentinel the scan never returns, whatever the bound. *)
Lemma count_loop_no_sentinel fuel : forall i,
  0 <= i < 2 ^ 64 -> no_sentinel (mem st) vptr ->
  count_loop fuel t i st = OutOfFuel.
Proof.
  induction fuel as [|fuel IH]; intros i Hi Hns.
  - reflexivity.
  - destruct (Hns i Hi) as [v [Hv Hv0]].
    rewrite (count_loop_step _ _ v Hv Hv0).
    apply IH; [|exact Hns].
    unfold wrap64. apply Z.mod_pos_bound. lia.
Qed.

(** The scan reads and never writes; when it returns, it returns the
    index of the first zero slot. *)
Lemma count_loop_sound fuel : forall i n st',
  0 <= i < 2 ^ 64 ->
  (forall j, 0 <= j < i -> nonzero_slot (mem st) vptr j) ->
  count_loop fuel t i st = Ret n st' ->
  st' = st /\ 0 <= n < 2 ^ 64 /\ mem st (vptr + 8 * n) = Some 0
  /\ (forall j, 0 <= j < n -> nonzero_slot (mem st) vptr j).
Proof.
  induction fuel as [|fuel IH]; intros i n st' Hi Hnz H.
  - discriminate.
  - cbn [count_loop] in H.
    apply bind_ret_inv in H. destruct H as [p [st0 [Hp H]]].
    apply load_inv in Hp. destruct Hp as [-> Hp].
    assert (p = vptr) by congruence. subst p.
    apply bind_ret_inv in H. destruct H as [v [st1 [Hl H]]].
    apply load_inv in Hl. destruct Hl as [-> Hv].
    destruct (Z.eqb_spec v 0) as [->|Hv0]; cbn [negb] in H.
    + inversion H; subst. auto.
    + assert (Hall : forall j, 0 <= j < i + 1 -> nonzero_slot (mem st) vptr j).
      { intros j Hj. destruct (Z.eq_dec j i) as [->|Hne].
        - exists v. auto.
        - apply Hnz. lia. }
      destruct (Z.eq_dec (i + 1) (2 ^ 64)) as [Hw|Hw].
      * apply IH in H.
        -- destruct H as [-> [Hn [Hz _]]].
           destruct (Hall n) as [w [Hw1 Hw2]]; [lia|]. congruence.
        -- unfold wrap64. apply Z.mod_pos_bound. lia.
        -- unfold wrap64. rewrite Hw, Z.mod_same by lia. intros j Hj. lia.
      * rewrite wrap64_small in H by lia.
        apply IH in H; [exact H | lia | exact Hall].
Qed.

End Scan.

(** ** The boolean descriptions of a table, read as facts about memory *)

Lemma table_from_slots m vptr entries : forall i,
  table_from m vptr i entries = true ->
  (forall j, i <= j < i + Z.of_nat (List.length entries) -> nonzero_slot m vptr j)
  /\ m (vptr + 8 * (i + Z.of_nat (List.length entries))) = Some 0.
Proof.
  induction entries as [|e rest IH]; intros i H; cbn [table_from List.length] in *.
  - split; [intros j Hj; lia|].
    replace (i + Z.of_nat 0) with i by lia.
    destruct (m (vptr + 8 * i)) as [v|]; [|discriminate].
    apply Z.eqb_eq in H. now subst.
  - destruct (m (vptr + 8 * i)) as [v|] eqn:Hv; [|discriminate].
    apply andb_prop in H. destruct H as [H Hrest].
    apply andb_prop in H. destruct H as [Hve He].
    apply Z.eqb_eq in Hve. subst v.
    apply negb_true_iff, Z.eqb_neq in He.
    destruct (IH _ Hrest) as [Hnz Hz].
    replace (i + Z.of_nat (S (List.length rest)))
      with (i + 1 + Z.of_nat (List.length rest)) by lia.
    split; [|exact Hz].
    intros j Hj. destruct (Z.eq_dec j i) as [->|Hne].
    + exists e. auto.
    + apply Hnz. lia.
Qed.

Lemma nonzero_below_slots m vptr n :
  nonzero_below m vptr n = true ->
  forall j, 0 <= j < Z.of_nat n -> nonzero_slot m vptr j.
Proof.
  induction n as [|n IH]; cbn [nonzero_below]; intros H j Hj; [lia|].
  apply andb_prop in H. destruct H as [Hb Hn].
  destruct (Z.eq_dec j (Z.of_nat n)) as [->|Hne].
  - unfold nonzero_slot.
    destruct (m (vptr + 8 * Z.of_nat n)) as [v|]; [|discriminate].
    exists v. split; [reflexivity|].
    apply negb_true_iff, Z.eqb_neq in Hn. exact Hn.
  - apply IH; [exact Hb | lia].
Qed.

Lemma sentinel_at_slots m vptr n :
  sentinel_at m vptr n = true ->
  (forall j, 0 <= j < Z.of_nat n -> nonzero_slot m vptr j)
  /\ m (vptr + 8 * Z.of_nat n) = Some 0.
Proof.
  unfold sentinel_at. intros H.
  apply andb_prop in H. destruct H as [Hb Hz].
  split; [apply nonzero_below_slots; exact Hb|].
  destruct (m (vptr + 8 * Z.of_nat n)) as [v|]; [|discriminate].
  apply Z.eqb_eq in Hz. now subst.
Qed.

(** Two first zero slots of one table are the same slot. *)
Lemma first_zero_unique m vptr a b :
  0 <= a -> 0 <= b ->
  m (vptr + 8 * a) = Some 0 -> (forall j, 0 <= j < a -> nonzero_slot m vptr j) ->
  m (vptr + 8 * b) = Some 0 -> (forall j, 0 <= j < b -> nonzero_slot m vptr j) ->
  a = b.
Proof.
  intros Ha Hb Za Na Zb Nb.
  destruct (Z.lt_trichotomy a b) as [Hlt|[Heq|Hgt]]; [|exact Heq|].
  - destruct (Nb a) as [v [Hv Hv0]]; [lia|]. congruence.
  - destruct (Na b) as [v [Hv Hv0]]; [lia|]. congruence.
Qed.

Lemma getVirtualMethodCount_sound fuel t st n st' :
  getVirtualMethodCount fuel t st = Ret n st' ->
  st' = st /\ exists vptr, mem st t = Some vptr /\ 0 <= n < 2 ^ 64
    /\ mem st (vptr + 8 * n) = Some 0
    /\ (forall j, 0 <= j < n -> nonzero_slot (mem st) vptr j).
Proof.
  unfold getVirtualMethodCount. intros H.
  destruct (mem st t) as [vptr|] eqn:Hv.
  - apply (count_loop_sound st t vptr Hv) in H; [|lia|intros j Hj; lia].
    destruct H as [-> H]. split; [reflexivity|]. exists vptr. auto.
  - destruct fuel as [|fuel]; [discriminate|].
    cbn [count_loop] in H. unfold bind, load in H. rewrite Hv in H.
    discriminate.
Qed.

(** The count of an instance whose table holds [entries]. *)
Lemma count_of_instance st t entries fuel :
  polymorphic_instance (mem st) t entries = true ->
  Z.of_nat (List.length entries) < 2 ^ 64 ->
  (List.length entries < fuel)%nat ->
  getVirtualMethodCount fuel t st = Ret (Z.of_nat (List.length entries)) st.
Proof.
  unfold polymorphic_instance, dispatch_table. intros Hinst Hlen Hf.
  destruct (mem st t) as [vptr|] eqn:Hv; [|discriminate].
  apply table_from_slots in Hinst. cbn [Z.add] in Hinst.
  destruct Hinst as [Hnz Hz].
  apply (count_loop_reaches st t vptr Hv (List.length entries) fuel 0);
    auto; lia.
Qed.

(** ** The slot counter: claims C1 and C7 *)

(** C1: for a fully constructed instance whose dispatch table holds
    [entries] and is zero-terminated, [getVirtualMethodCount] reads the
    table pointer in the first word of the instance, walks the slots from
    index 0 and returns the number of entries, the sentinel excluded;
    the state is left as it was and no run returns anything else. *)
Theorem getVirtualMethodCount_counts_slots st t entries :
  polymorphic_instance (mem st) t entries = true ->
  Z.of_nat (List.length entries) < 2 ^ 64 ->
  (forall fuel, (List.length entries < fuel)%nat ->
     getVirtualMethodCount fuel t st = Ret (Z.of_nat (List.length entries)) st)
  /\ (forall fuel n st', getVirtualMethodCount fuel t st = Ret n st' ->
        n = Z.of_nat (List.length entries)).
Proof.
  intros Hinst Hlen. split.
  - intros fuel Hf. apply count_of_instance; assumption.
  - intros fuel n st' H.
    pose proof (count_of_instance st t entries (S (List.length entries))
                  Hinst Hlen (Nat.lt_succ_diag_r _)) as Hc.
    apply getVirtualMethodCount_sound in H, Hc.
    destruct H as [_ [vptr [Hv [Hn [Hz Hnz]]]]].
    destruct Hc as [_ [vptr' [Hv' [Hn' [Hz' Hnz']]]]].
    assert (vptr' = vptr) by congruence. subst vptr'.
    apply (first_zero_unique (mem st) vptr); auto; lia.
Qed.

Lemma getVirtualMethodCount_counts_slots_witness :
  getVirtualMethodCount 5 8192 (image 4096 [4198400; 4198416; 4198432; 4198448] 8192)
  = Ret 4 (image 4096 [4198400; 4198416; 4198432; 4198448] 8192).
Proof.
  apply (proj1 (getVirtualMethodCount_counts_slots
                  (image 4096 [4198400; 4198416; 4198432; 4198448] 8192) 8192
                  [4198400; 4198416; 4198432; 4198448] eq_refl eq_refl) 5%nat).
  simpl. lia.
Defined.

(** C7: when the table has its first zero slot at index [n],
    [getVirtualMethodCount] returns [n] as soon as it may make [n + 1]
    tests, and with fewer tests it has not returned yet: the bound
    comes from the table, not from the routine.  When no slot is zero it
    never returns, and whenever it returns, the slot at the index
    returned is the first zero slot. *)
Theorem getVirtualMethodCount_terminates_with_sentinel st t vptr :
  mem st t = Some vptr ->
  (forall n, sentinel_at (mem st) vptr n = true -> Z.of_nat n < 2 ^ 64 ->
     (forall fuel, (n < fuel)%nat ->
        getVirtualMethodCount fuel t st = Ret (Z.of_nat n) st)
     /\ (forall fuel, (fuel <= n)%nat ->
        getVirtualMethodCount fuel t st = OutOfFuel))
  /\ (no_sentinel (mem st) vptr ->
      forall fuel, getVirtualMethodCount fuel t st = OutOfFuel)
  /\ (forall fuel n st', getVirtualMethodCount fuel t st = Ret n st' ->
      mem st (vptr + 8 * n) = Some 0
      /\ (forall j, 0 <= j < n -> nonzero_slot (mem st) vptr j)).
Proof.
  intros Hv. unfold getVirtualMethodCount. split; [|split].
  - intros n Hs Hn. apply sentinel_at_slots in Hs. destruct Hs as [Hnz Hz].
    split; intros fuel Hf.
    + apply (count_loop_reaches st t vptr Hv n fuel 0); auto; lia.
    + apply (count_loop_starves st t vptr Hv fuel n 0); auto; lia.
  - intros Hns fuel.
    apply (count_loop_no_sentinel st t vptr Hv); [lia | exact Hns].
  - intros fuel n st' H.
    apply (count_loop_sound st t vptr Hv) in H; [|lia|intros j Hj; lia].
    tauto.
Qed.

Lemma getVirtualMethodCount_terminates_with_sentinel_witness :
  getVirtualMethodCount 5 8192 (image 4096 [7; 7; 7; 7] 8192)
  = Ret 4 (image 4096 [7; 7; 7; 7] 8192)
  /\ getVirtualMethodCount 4 8192 (image 4096 [7; 7; 7; 7] 8192) = OutOfFuel
  /\ (forall fuel, getVirtualMethodCount fuel 0 (mkState all_ones 65536 [])
                   = OutOfFuel).
Proof.
  pose proof (getVirtualMethodCount_terminates_with_sentinel
                (image 4096 [7; 7; 7; 7] 8192) 8192 4096 eq_refl) as [Hs _].
  destruct (Hs 4%nat eq_refl eq_refl) as [Hret Hcut].
  split; [apply Hret; lia|].
  split; [apply Hcut; lia|].
  apply (proj1 (proj2 (getVirtualMethodCount_terminates_with_sentinel
                         (mkState all_ones 65536 []) 0 1 eq_refl))).
  intros i Hi. exists 1. split; [reflexivity | lia].
Defined.

(** ** The driver's count: claim C9 *)

(** C9: [getVirtualMethodCountSCPDriver] returns the counted total minus
    4 (depth 2 times 2 default entries) as an [unsigned long]: the
    difference itself from 4 slots on, and below 4 slots the difference
    wrapped modulo 2^64, a value of at least 2^64 - 4, returned as an
    ordinary result. *)
Theorem getVirtualMethodCountSCPDriver_wraps fuel scpDriver st n :
  getVirtualMethodCount fuel scpDriver st = Ret n st ->
  getVirtualMethodCountSCPDriver fuel scpDriver st = Ret ((n - 2 * 2) mod 2 ^ 64) st
  /\ (4 <= n -> getVirtualMethodCountSCPDriver fuel scpDriver st = Ret (n - 4) st)
  /\ (n < 4 ->
      getVirtualMethodCountSCPDriver fuel scpDriver st = Ret (2 ^ 64 + n - 4) st
      /\ 2 ^ 64 - 4 <= 2 ^ 64 + n - 4 < 2 ^ 64).
Proof.
  intros H.
  assert (Hn : 0 <= n < 2 ^ 64).
  { apply getVirtualMethodCount_sound in H.
    destruct H as [_ [vptr [_ [Hn _]]]]. exact Hn. }
  assert (Hr : getVirtualMethodCountSCPDriver fuel scpDriver st
               = Ret ((n - 4) mod 2 ^ 64) st).
  { unfold getVirtualMethodCountSCPDriver, bind. rewrite H. reflexivity. }
  split; [exact Hr|]. split.
  - intros H4. rewrite Hr. f_equal. apply Z.mod_small. lia.
  - intros H4. split; [|lia]. rewrite Hr. f_equal.
    symmetry. apply (Z.mod_unique_pos _ _ (-1)); lia.
Qed.

Lemma getVirtualMethodCountSCPDriver_wraps_witness :
  getVirtualMethodCountSCPDriver 9 8192 (image 4096 [7; 7; 7] 8192)
  = Ret 18446744073709551615 (image 4096 [7; 7; 7] 8192).
Proof.
  apply (proj2 (proj2 (getVirtualMethodCountSCPDriver_wraps 9 8192
                         (image 4096 [7; 7; 7] 8192) 3 eq_refl))).
  lia.
Defined.

(** ** The driver's [computeTimeout]: claim C10 *)

(** C10: the body of [VTSCPDriver::computeTimeout] computes
    [std::chrono::milliseconds(100)], drops it and meets the closing
    brace without a [return]: for every round number the call has no
    defined result. *)
Theorem computeTimeout_has_no_result roundNumber st :
  VTSCPDriver.computeTimeout roundNumber st = Undefined MissingReturn
  /\ result (VTSCPDriver.computeTimeout roundNumber st) = None.
Proof. split; reflexivity. Qed.

(** Its neighbours end in a [return] and do have a result. *)
Lemma computeValueHash_returns slotIndex roundNumber st :
  VTSCPDriver.computeValueHash slotIndex roundNumber st = Ret 0 st.
Proof. reflexivity. Qed.

(** ** The decoder: claims C2 and C3 *)

Lemma encode_minus_one i w : encode i w - 1 = i * w.
Proof. unfold encode. lia. Qed.

Lemma encode_odd i w : Z.even w = true -> Z.odd (encode i w) = true.
Proof.
  intros Hw. unfold encode.
  rewrite Z.add_1_r, Z.odd_succ, Z.even_mul, Hw. apply orb_true_r.
Qed.

(** The constants that [doCheckMethodPoint] compares with are the
    encodings of slots 0 to 3 for 8-byte pointers, and decode to them. *)
Lemma checked_constants_are_encodings :
  map (fun i => encode i 8) [0; 1; 2; 3] = [1; 9; 17; 25]
  /\ map (fun raw => decodeSlot raw 8) [1; 9; 17; 25]
     = [inr 0; inr 1; inr 2; inr 3].
Proof. split; reflexivity. Qed.

(** C2: [decodeSlot] is a left inverse of the encoding: for every slot
    index [i >= 0] and every pointer width [w], a positive number of
    bytes under which the raw values [index * w + 1] are odd, that is an
    even one, decoding the raw value [i * w + 1] yields [i].  More
    generally, for every width other than 0 the encoding of [i] decodes
    to [i] exactly when it is odd. *)
Theorem decodeSlot_encode i w :
  0 <= i ->
  (0 < w -> Z.even w = true -> decodeSlot (encode i w) w = inr i)
  /\ (w <> 0 ->
      (decodeSlot (encode i w) w = inr i <-> Z.odd (encode i w) = true)).
Proof.
  intros Hi.
  assert (Hback : w <> 0 -> Z.odd (encode i w) = true ->
                  decodeSlot (encode i w) w = inr i).
  { intros Hw Ho. unfold decodeSlot.
    rewrite encode_minus_one, Ho.
    rewrite Z.mod_mul, Z.div_mul by exact Hw.
    rewrite Z.eqb_refl. cbn [andb].
    destruct (Z.leb_spec 0 i); [reflexivity | lia]. }
  split.
  - intros Hw He. apply Hback; [lia | apply encode_odd; exact He].
  - intros Hw. split; [|apply Hback; exact Hw].
    unfold decodeSlot. destruct (Z.odd (encode i w)); [reflexivity|].
    cbn [andb]. discriminate.
Qed.

Lemma decodeSlot_encode_witness : decodeSlot (encode 3 8) 8 = inr 3.
Proof.
  apply (proj1 (decodeSlot_encode 3 8 ltac:(lia))); [lia | reflexivity].
Defined.

(** C3: [decodeSlot] declines every even raw value, whatever the pointer
    width, every raw value such that [rawValue - 1] is not an exact
    multiple of the pointer width, and every raw value whose quotient is
    negative; an index is only returned for an odd raw value that is the
    encoding of that index, which is not negative. *)
Theorem decodeSlot_declines rawValue pointerWidth :
  (Z.even rawValue = true ->
     decodeSlot rawValue pointerWidth = inl NotAVirtualMemberPointer)
  /\ (~ (pointerWidth | rawValue - 1) ->
     decodeSlot rawValue pointerWidth = inl NotAVirtualMemberPointer)
  /\ ((rawValue - 1) / pointerWidth < 0 ->
     decodeSlot rawValue pointerWidth = inl NotAVirtualMemberPointer)
  /\ (forall index, decodeSlot rawValue pointerWidth = inr index ->
     Z.odd rawValue = true /\ rawValue = encode index pointerWidth
     /\ 0 <= index).
Proof.
  unfold decodeSlot, encode. split; [|split; [|split]].
  - intros He. rewrite <- Z.negb_even, He. reflexivity.
  - intros Hd.
    destruct (Z.eqb_spec ((rawValue - 1) mod pointerWidth) 0) as [Hm|Hm].
    + exfalso. apply Hd. exists ((rawValue - 1) / pointerWidth).
      destruct (Z.eq_dec pointerWidth 0) as [->|Hw].
      * rewrite Z.mod_0_r in Hm. lia.
      * pose proof (Z.div_mod (rawValue - 1) pointerWidth Hw). lia.
    + rewrite andb_false_r. reflexivity.
  - intros Hq. apply Z.leb_gt in Hq. rewrite Hq, andb_false_r. reflexivity.
  - intros index.
    destruct (Z.odd rawValue); cbn [andb]; [|discriminate].
    destruct (Z.eqb_spec ((rawValue - 1) mod pointerWidth) 0) as [Hm|Hm];
      cbn [andb]; [|discriminate].
    destruct (Z.leb_spec 0 ((rawValue - 1) / pointerWidth)) as [Hq|Hq];
      [|discriminate].
    intros H. inversion H; subst. split; [reflexivity|]. split; [|exact Hq].
    destruct (Z.eq_dec pointerWidth 0) as [->|Hw].
    + rewrite Z.mod_0_r in Hm. lia.
    + pose proof (Z.div_mod (rawValue - 1) pointerWidth Hw). lia.
Qed.

Lemma decodeSlot_declines_witness :
  decodeSlot 16 8 = inl NotAVirtualMemberPointer
  /\ decodeSlot 11 8 = inl NotAVirtualMemberPointer
  /\ decodeSlot (-7) 8 = inl NotAVirtualMemberPointer
  /\ (Z.odd 25 = true /\ 25 = encode 3 8 /\ 0 <= 3).
Proof.
  pose proof (decodeSlot_declines 16 8) as [Heven _].
  pose proof (decodeSlot_declines 11 8) as [_ [Hmult _]].
  pose proof (decodeSlot_declines (-7) 8) as [_ [_ [Hneg _]]].
  pose proof (decodeSlot_declines 25 8) as [_ [_ [_ Hacc]]].
  split; [apply Heven; reflexivity|].
  split; [apply Hmult; intros [k Hk]; lia|].
  split; [apply Hneg; reflexivity|].
  apply (Hacc 3). reflexivity.
Defined.

(** ** The validator: claim C4 *)

Lemma validate_of_count fuel instance descriptor expected st observed :
  getVirtualMethodCount fuel instance st = Ret observed st ->
  validate fuel instance descriptor expected st
  = Ret (observed - chainDepth descriptor * baselinePerLevel descriptor
         =? expected) st.
Proof. intros H. unfold validate, bind. rewrite H. reflexivity. Qed.

Lemma driver_of_count fuel scpDriver st n :
  getVirtualMethodCount fuel scpDriver st = Ret n st ->
  getVirtualMethodCountSCPDriver fuel scpDriver st = Ret ((n - 4) mod 2 ^ 64) st.
Proof.
  intros H. unfold getVirtualMethodCountSCPDriver, bind. rewrite H. reflexivity.
Qed.

(** C4: [validate] counts the slots of the instance, subtracts
    [chainDepth * baselinePerLevel] and returns whether the difference
    equals the expected number of interface slots, leaving the state as
    it was.  For the shape that [getVirtualMethodCountSCPDriver] has
    built in (depth 2, 2 entries per level) and an instance of at least
    4 slots, this is the comparison of that function's result with the
    expected number. *)
Theorem validate_compares fuel instance descriptor expected st observed :
  getVirtualMethodCount fuel instance st = Ret observed st ->
  validate fuel instance descriptor expected st
  = Ret (observed - chainDepth descriptor * baselinePerLevel descriptor
         =? expected) st
  /\ (4 <= observed ->
      exists attributable,
        getVirtualMethodCountSCPDriver fuel instance st = Ret attributable st
        /\ validate fuel instance (mkShape 2 2) expected st
           = Ret (attributable =? expected) st).
Proof.
  intros H. split; [apply validate_of_count; exact H|].
  intros H4. exists (observed - 4). split.
  - rewrite (driver_of_count _ _ _ _ H). f_equal.
    apply getVirtualMethodCount_sound in H.
    destruct H as [_ [vptr [_ [Hn _]]]].
    apply Z.mod_small. lia.
  - rewrite (validate_of_count _ _ _ _ _ _ H). reflexivity.
Qed.

Lemma validate_compares_witness :
  validate 9 8192 (mkShape 2 2) 2 (image 4096 code_of_TwoLevel 8192)
  = Ret true (image 4096 code_of_TwoLevel 8192).
Proof.
  apply (proj1 (validate_compares 9 8192 (mkShape 2 2) 2
                  (image 4096 code_of_TwoLevel 8192) 6 eq_refl)).
Defined.

(** ** The member-pointer check *)

Lemma doCheckMethodPoint_run cc st :
  doCheckMethodPoint cc st
  = Ret (first_mismatch cc)
        (mkState (mem (after_new_B cc st)) (brk st + 16)
                 (out st ++ if first_mismatch cc =? 0 then report cc else [])).
Proof.
  unfold doCheckMethodPoint, new_B, first_mismatch, report, after_new_B.
  unfold bind, alloc, store, load, printf, ret. cbn [mem brk out].
  unfold write at 1 2.
  destruct (Z.eqb_spec (brk st) (brk st + 8)) as [E|_]; [lia|].
  rewrite Z.eqb_refl.
  destruct (as_long (member_pointer cc B "vfunc1") =? 1); cbn [negb];
    [|rewrite app_nil_r; reflexivity].
  destruct (as_long (member_pointer cc B "vfunc2") =? 9); cbn [negb];
    [|rewrite app_nil_r; reflexivity].
  destruct (as_long (member_pointer cc B "vfunc3") =? 17); cbn [negb];
    [|rewrite app_nil_r; reflexivity].
  destruct (as_long (member_pointer cc B "vfunc4") =? 25); cbn [negb];
    [|rewrite app_nil_r; reflexivity].
  cbn [Z.eqb]. repeat rewrite <- app_assoc. reflexivity.
Qed.

(** Under the tagging convention all four comparisons hold. *)
Lemma doCheckMethodPoint_passes vtables st :
  result (doCheckMethodPoint (tagging_compiler vtables) st) = Some 0.
Proof. rewrite doCheckMethodPoint_run. reflexivity. Qed.

(** ** The two scenarios: claims C5 and C6 *)

(** C5, as amended: class [B] takes 2 slots from [A] and adds 2; with
    8-byte pointers and the first slot at offset 0 the pointers to the
    inherited slots have the raw values 1 and 9 and those to the 2 new
    slots the raw values 17 and 25, which is what [doCheckMethodPoint]
    accepts; an instance is counted as 4 slots, and [validate] with
    depth 1, baseline 2 and 2 expected slots answers true. *)
Theorem single_level_scenario vtables st t entries fuel :
  polymorphic_instance (mem st) t entries = true ->
  List.length entries = List.length (vtable_slots B) ->
  (4 < fuel)%nat ->
  (inherited_slots B = ["vfunc1"; "vfunc2"]
   /\ new_slots B = ["vfunc3"; "vfunc4"])
  /\ raw_values (tagging_compiler vtables) B (inherited_slots B) = [1; 9]
  /\ raw_values (tagging_compiler vtables) B (new_slots B) = [17; 25]
  /\ result (doCheckMethodPoint (tagging_compiler vtables) st) = Some 0
  /\ getVirtualMethodCount fuel t st = Ret 4 st
  /\ validate fuel t (mkShape 1 2) 2 st = Ret true st.
Proof.
  intros Hinst Hlen Hf.
  assert (Hc : getVirtualMethodCount fuel t st = Ret 4 st).
  { change 4 with (Z.of_nat (List.length (vtable_slots B))).
    rewrite <- Hlen. apply count_of_instance; [exact Hinst | | ];
      rewrite Hlen; cbn; lia. }
  split; [split; reflexivity|].
  split; [reflexivity|]. split; [reflexivity|].
  split; [apply doCheckMethodPoint_passes|].
  split; [exact Hc|].
  rewrite (validate_of_count _ _ _ _ _ _ Hc). reflexivity.
Qed.

Lemma single_level_scenario_witness :
  raw_values (tagging_compiler vtables_at_4096) B (new_slots B) = [17; 25]
  /\ getVirtualMethodCount 5 8192 (image 4096 code_of_B 8192)
     = Ret 4 (image 4096 code_of_B 8192)
  /\ validate 5 8192 (mkShape 1 2) 2 (image 4096 code_of_B 8192)
     = Ret true (image 4096 code_of_B 8192).
Proof.
  pose proof (single_level_scenario vtables_at_4096
                (image 4096 code_of_B 8192) 8192 code_of_B 5
                eq_refl eq_refl) as H.
  destruct H as [_ [_ [Hraw [_ [Hcount Hval]]]]]; [simpl; lia|].
  split; [exact Hraw|]. split; [exact Hcount | exact Hval].
Defined.

(** C5, as stated, fails: the pointers to the 2 new slots of [B] do not
    have the raw values 1 and 9, and with a compiler that gave them these
    values [doCheckMethodPoint] would stop at its third comparison. *)
Lemma single_level_new_slots_not_1_and_9 :
  new_slots B = ["vfunc3"; "vfunc4"]
  /\ raw_values (tagging_compiler vtables_at_4096) B (new_slots B) <> [1; 9]
  /\ raw_values renumbering_compiler B (new_slots B) = [1; 9]
  /\ result (doCheckMethodPoint renumbering_compiler
               (image 4096 code_of_B 8192)) = Some 17.
Proof.
  split; [reflexivity|]. split; [discriminate|].
  split; [reflexivity|]. rewrite doCheckMethodPoint_run. reflexivity.
Qed.



(** ** Effects: claim C8 *)

Lemma validate_frame fuel t d e st b st' :
  validate fuel t d e st = Ret b st' -> st' = st.
Proof.
  unfold validate. intros H.
  apply bind_ret_inv in H. destruct H as [n [st1 [Hc H]]].
  apply getVirtualMethodCount_sound in Hc. destruct Hc as [-> _].
  inversion H. reflexivity.
Qed.

Lemma driver_frame fuel t st n st' :
  getVirtualMethodCountSCPDriver fuel t st = Ret n st' -> st' = st.
Proof.
  unfold getVirtualMethodCountSCPDriver. intros H.
  apply bind_ret_inv in H. destruct H as [k [st1 [Hc H]]].
  apply getVirtualMethodCount_sound in Hc. destruct Hc as [-> _].
  inversion H. reflexivity.
Qed.

(** C8, as amended: the slot counter, the driver's count and the
    validator only read: a run that returns leaves memory, the heap and
    the output as they were.  [doCheckMethodPoint] always returns; it
    allocates the 16 bytes of a [B] that it keeps, prints nothing when a
    comparison fails, and prints four lines when all four hold. *)
Theorem reads_leave_state_unchanged fuel t st :
  (forall n st', getVirtualMethodCount fuel t st = Ret n st' -> st' = st)
  /\ (forall n st', getVirtualMethodCountSCPDriver fuel t st = Ret n st' ->
        st' = st)
  /\ (forall d e b st', validate fuel t d e st = Ret b st' -> st' = st)
  /\ (forall cc, exists r st',
        doCheckMethodPoint cc st = Ret r st'
        /\ brk st' = brk st + 16
        /\ mem st' (brk st) = Some (vtable_address cc B)
        /\ (r <> 0 -> out st' = out st)
        /\ (r = 0 -> out st' = out st ++ report cc)).
Proof.
  split; [|split; [|split]].
  - intros n st' H. apply getVirtualMethodCount_sound in H. tauto.
  - intros n st'. apply driver_frame.
  - intros d e b st'. apply validate_frame.
  - intros cc. eexists. eexists.
    split; [apply doCheckMethodPoint_run|]. cbn [brk mem out].
    split; [reflexivity|]. split.
    + unfold after_new_B, write. cbn [mem].
      destruct (Z.eqb_spec (brk st) (brk st + 8)); [lia|].
      rewrite Z.eqb_refl. reflexivity.
    + split; intros Hr.
      * apply Z.eqb_neq in Hr. rewrite Hr. apply app_nil_r.
      * rewrite Hr. reflexivity.
Qed.

Lemma reads_leave_state_unchanged_witness :
  final (validate 5 8192 (mkShape 1 2) 2 (image 4096 code_of_B 8192))
  = Some (image 4096 code_of_B 8192).
Proof.
  pose proof (reads_leave_state_unchanged 5 8192 (image 4096 code_of_B 8192))
    as [_ [_ [Hval _]]].
  destruct (validate 5 8192 (mkShape 1 2) 2 (image 4096 code_of_B 8192))
    as [b st'| |] eqn:E; try discriminate E.
  cbn [final]. f_equal.
  apply (Hval (mkShape 1 2) 2 b st'). exact E.
Defined.

(** C8, as stated, fails for [doCheckMethodPoint]: with the four
    comparisons holding, the run ends with four more lines on the output
    and one more object on the heap. *)
Lemma doCheckMethodPoint_prints :
  exists st',
    doCheckMethodPoint (tagging_compiler vtables_at_4096)
      (image 4096 code_of_B 8192) = Ret 0 st'
    /\ out (image 4096 code_of_B 8192) = []
    /\ out st' = report (tagging_compiler vtables_at_4096)
    /\ List.length (out st') = 4%nat
    /\ mem (image 4096 code_of_B 8192) 65536 = None
    /\ mem st' 65536 = Some 4096
    /\ st' <> image 4096 code_of_B 8192.
Proof.
  eexists. split; [apply doCheckMethodPoint_run|].
  repeat (split; [reflexivity|]).
  intros E. apply (f_equal out) in E. discriminate E.
Qed.

(** * Further properties of the code *)

(** ** The slot counter outside its precondition *)

Section Fault.

Variables (st : state) (t vptr : Z).
Hypothesis first_word : mem st t = Some vptr.

(** From slot [i], with [k] more non-zero slots and then a word that is
    not mapped, the scan stops at the read of that word. *)
Lemma count_loop_faults k : forall fuel i,
  0 <= i -> i + Z.of_nat k < 2 ^ 64 ->
  (forall j, i <= j < i + Z.of_nat k -> nonzero_slot (mem st) vptr j) ->
  mem st (vptr + 8 * (i + Z.of_nat k)) = None ->
  (k < fuel)%nat ->
  count_loop fuel t i st
  = Undefined (UnmappedRead (vptr + 8 * (i + Z.of_nat k))).
Proof.
  induction k as [|k IH]; intros fuel i Hi Hn Hnz Hz Hf;
    (destruct fuel as [|fuel]; [lia|]).
  - replace (i + Z.of_nat 0) with i in * by lia.
    cbn [count_loop]. unfold bind, load. rewrite first_word, Hz. reflexivity.
  - destruct (Hnz i) as [v [Hv Hv0]]; [lia|].
    rewrite (count_loop_step st t vptr first_word _ _ v Hv Hv0).
    rewrite wrap64_small by lia.
    replace (i + Z.of_nat (S k)) with ((i + 1) + Z.of_nat k) in * by lia.
    apply IH; try lia.
    + intros j Hj. apply Hnz. lia.
    + exact Hz.
Qed.

End Fault.

(** X1: outside its precondition the counter has no result.  When the
    object itself is not mapped, the first test already is a read of
    unmapped memory; when the table has [k] non-zero slots and the word
    after them is not mapped, the scan runs past the table and stops at
    the read of that word, and [getVirtualMethodCountSCPDriver] has no
    result either. *)
Theorem getVirtualMethodCount_faults_past_the_table st t :
  (mem st t = None ->
   forall fuel,
     getVirtualMethodCount (S fuel) t st = Undefined (UnmappedRead t))
  /\ (forall vptr k fuel,
        mem st t = Some vptr ->
        nonzero_below (mem st) vptr k = true ->
        mem st (vptr + 8 * Z.of_nat k) = None ->
        Z.of_nat k < 2 ^ 64 ->
        (k < fuel)%nat ->
        getVirtualMethodCount fuel t st
        = Undefined (UnmappedRead (vptr + 8 * Z.of_nat k))
        /\ getVirtualMethodCountSCPDriver fuel t st
           = Undefined (UnmappedRead (vptr + 8 * Z.of_nat k))).
Proof.
  split.
  - intros Hnone fuel. unfold getVirtualMethodCount. cbn [count_loop].
    unfold bind, load. rewrite Hnone. reflexivity.
  - intros vptr k fuel Hv Hnz Hz Hk Hf.
    assert (Hc : getVirtualMethodCount fuel t st
                 = Undefined (UnmappedRead (vptr + 8 * Z.of_nat k))).
    { unfold getVirtualMethodCount.
      apply (count_loop_faults st t vptr Hv k fuel 0); try lia.
      - intros j Hj. apply (nonzero_below_slots _ _ k Hnz). lia.
      - exact Hz. }
    split; [exact Hc|].
    unfold getVirtualMethodCountSCPDriver, bind. rewrite Hc. reflexivity.
Qed.

Lemma getVirtualMethodCount_faults_past_the_table_witness :
  getVirtualMethodCount 1 8192 (mkState empty_memory 65536 [])
  = Undefined (UnmappedRead 8192)
  /\ getVirtualMethodCount 9 8192
       (mkState (write (write (write empty_memory 4096 7) 4104 7) 8192 4096)
                65536 [])
     = Undefined (UnmappedRead 4112).
Proof.
  split.
  - apply (proj1 (getVirtualMethodCount_faults_past_the_table
                    (mkState empty_memory 65536 []) 8192) eq_refl 0%nat).
  - apply (proj2 (getVirtualMethodCount_faults_past_the_table
                    (mkState (write (write (write empty_memory 4096 7) 4104 7)
                                    8192 4096) 65536 []) 8192)
                 4096 2%nat 9%nat eq_refl eq_refl eq_refl eq_refl).
    lia.
Defined.

(** ** What the count depends on *)

(** A run that returns [n] had more than [n] tests to make. *)
Lemma count_needs_fuel fuel t st n st' :
  getVirtualMethodCount fuel t st = Ret n st' -> (Z.to_nat n < fuel)%nat.
Proof.
  intros H. pose proof H as Hs.
  apply getVirtualMethodCount_sound in Hs.
  destruct Hs as [_ [vptr [Hv [Hn [Hz Hnz]]]]].
  destruct (Nat.le_gt_cases fuel (Z.to_nat n)) as [Hle|Hgt]; [|exact Hgt].
  unfold getVirtualMethodCount in H.
  rewrite (count_loop_starves st t vptr Hv fuel (Z.to_nat n) 0) in H;
    [discriminate | lia | lia | | exact Hle].
  intros j Hj. apply Hnz. lia.
Qed.

Lemma count_local fuel t st st2 n :
  getVirtualMethodCount fuel t st = Ret n st ->
  mem st2 t = mem st t ->
  (forall vptr j, mem st t = Some vptr -> 0 <= j <= n ->
     mem st2 (vptr + 8 * j) = mem st (vptr + 8 * j)) ->
  getVirtualMethodCount fuel t st2 = Ret n st2.
Proof.
  intros H Ht Hslots.
  pose proof (count_needs_fuel _ _ _ _ _ H) as Hf.
  apply getVirtualMethodCount_sound in H.
  destruct H as [_ [vptr [Hv [Hn [Hz Hnz]]]]].
  assert (Hv2 : mem st2 t = Some vptr) by congruence.
  unfold getVirtualMethodCount.
  pose proof (count_loop_reaches st2 t vptr Hv2 (Z.to_nat n) fuel 0) as R.
  replace (0 + Z.of_nat (Z.to_nat n)) with n in R by lia.
  apply R; try lia.
  - intros j Hj. destruct (Hnz j) as [v [Hjv Hv0]]; [lia|].
    exists v. split; [|exact Hv0].
    rewrite (Hslots vptr j Hv) by lia. exact Hjv.
  - rewrite (Hslots vptr n Hv) by lia. exact Hz.
Qed.

(** X2: the count only depends on the first word of the object and on
    the slots of its table up to the sentinel: in a state that agrees
    with [st] on these words, whatever else differs, the counter returns
    the same number. *)
Theorem getVirtualMethodCount_local fuel t st st2 n :
  getVirtualMethodCount fuel t st = Ret n st ->
  mem st2 t = mem st t ->
  (forall vptr j, mem st t = Some vptr -> 0 <= j <= n ->
     mem st2 (vptr + 8 * j) = mem st (vptr + 8 * j)) ->
  getVirtualMethodCount fuel t st2 = Ret n st2.
Proof. apply count_local. Qed.

Lemma getVirtualMethodCount_local_witness :
  getVirtualMethodCount 5 8192
    (mkState (write (mem (image 4096 code_of_B 8192)) 8200 77) 0 [])
  = Ret 4 (mkState (write (mem (image 4096 code_of_B 8192)) 8200 77) 0 []).
Proof.
  apply (getVirtualMethodCount_local 5 8192 (image 4096 code_of_B 8192)
           (mkState (write (mem (image 4096 code_of_B 8192)) 8200 77) 0 [])
           4 eq_refl eq_refl).
  intros vptr j Hv Hj. cbn in Hv. inversion Hv; subst vptr.
  cbn [mem]. unfold write at 1.
  destruct (Z.eqb_spec (4096 + 8 * j) 8200) as [E|_]; [lia | reflexivity].
Defined.

(** ** The driver's count against an expected number *)

(** X3: the subtraction of the driver loses nothing: the counted total
    is its result plus 4 modulo 2^64, and for an expected number below
    2^64 - 4 the result equals it exactly when the table has that many
    slots plus 4; a table of fewer than 4 slots is never taken for one
    of the expected size. *)
Theorem driver_result_determines_count fuel scpDriver st n :
  getVirtualMethodCount fuel scpDriver st = Ret n st ->
  (forall r st', getVirtualMethodCountSCPDriver fuel scpDriver st = Ret r st' ->
     n = (r + 4) mod 2 ^ 64)
  /\ (forall expected, 0 <= expected < 2 ^ 64 - 4 ->
        (getVirtualMethodCountSCPDriver fuel scpDriver st = Ret expected st
         <-> n = expected + 4)).
Proof.
  intros H.
  assert (Hn : 0 <= n < 2 ^ 64).
  { apply getVirtualMethodCount_sound in H.
    destruct H as [_ [vptr [_ [Hn _]]]]. exact Hn. }
  rewrite (driver_of_count _ _ _ _ H).
  assert (Hcases : (4 <= n /\ (n - 4) mod 2 ^ 64 = n - 4)
                   \/ (n < 4 /\ (n - 4) mod 2 ^ 64 = 2 ^ 64 + n - 4)).
  { destruct (Z_le_gt_dec 4 n) as [H4|H4].
    - left. split; [exact H4|]. apply Z.mod_small. lia.
    - right. split; [lia|]. symmetry.
      apply (Z.mod_unique_pos _ _ (-1)); lia. }
  split.
  - intros r st' E.
    assert (Er : (n - 4) mod 2 ^ 64 = r) by congruence.
    rewrite <- Er.
    destruct Hcases as [[H4 Hm]|[H4 Hm]]; rewrite Hm.
    + replace (n - 4 + 4) with n by lia. symmetry. apply Z.mod_small. exact Hn.
    + apply (Z.mod_unique_pos _ _ 1); lia.
  - intros expected He. split.
    + intros E.
      assert (E' : (n - 4) mod 2 ^ 64 = expected) by congruence.
      destruct Hcases as [[H4 Hm]|[H4 Hm]]; rewrite Hm in E'; lia.
    + intros ->. f_equal.
      replace (expected + 4 - 4) with expected by lia.
      apply Z.mod_small. lia.
Qed.

Lemma driver_result_determines_count_witness :
  getVirtualMethodCountSCPDriver 9 8192 (image 4096 code_of_TwoLevel 8192)
  = Ret 2 (image 4096 code_of_TwoLevel 8192).
Proof.
  apply (proj2 (driver_result_determines_count 9 8192
                  (image 4096 code_of_TwoLevel 8192) 6 eq_refl) 2).
  - lia.
  - reflexivity.
Defined.

(** ** The member-pointer check as its callers see it *)

Lemma mem_after_new_B cc st a :
  mem (after_new_B cc st) a
  = if a =? brk st + 8 then Some (1 + 2 * 2 ^ 32)
    else if a =? brk st then Some (vtable_address cc B)
    else mem st a.
Proof. reflexivity. Qed.

Lemma mem_after_new_B_other cc st a :
  a <> brk st -> a <> brk st + 8 -> mem (after_new_B cc st) a = mem st a.
Proof.
  intros H0 H8. rewrite mem_after_new_B.
  destruct (Z.eqb_spec a (brk st + 8)); [lia|].
  destruct (Z.eqb_spec a (brk st)); [lia | reflexivity].
Qed.

Lemma mem_after_new_B_first cc st :
  mem (after_new_B cc st) (brk st) = Some (vtable_address cc B).
Proof.
  rewrite mem_after_new_B.
  destruct (Z.eqb_spec (brk st) (brk st + 8)); [lia|].
  rewrite Z.eqb_refl. reflexivity.
Qed.

Lemma new_B_run cc st : new_B cc st = Ret (brk st) (after_new_B cc st).
Proof. reflexivity. Qed.

Lemma doCheckMethodPoint_state cc st r st' :
  doCheckMethodPoint cc st = Ret r st' ->
  r = first_mismatch cc
  /\ mem st' = mem (after_new_B cc st)
  /\ brk st' = brk st + 16
  /\ out st' = out st ++ (if r =? 0 then report cc else []).
Proof.
  rewrite doCheckMethodPoint_run. intros H.
  assert (Hr : first_mismatch cc = r) by congruence.
  assert (Hs : final (Ret r st') = final (doCheckMethodPoint cc st)).
  { rewrite doCheckMethodPoint_run, <- H. reflexivity. }
  rewrite doCheckMethodPoint_run in Hs. cbn [final] in Hs.
  assert (Hst : st' = mkState (mem (after_new_B cc st)) (brk st + 16)
                  (out st ++ (if first_mismatch cc =? 0 then report cc else [])))
    by congruence.
  subst st' r. cbn [mem brk out]. auto.
Qed.

Lemma first_mismatch_zero cc :
  first_mismatch cc = 0 <-> checked_raws cc = expected_raws.
Proof.
  unfold first_mismatch, checked_raws, expected_raws, raw_values. cbn [map].
  destruct (Z.eqb_spec (as_long (member_pointer cc B "vfunc1")) 1) as [E1|E1];
    cbn [negb]; [|split; [discriminate | intros H; congruence]].
  destruct (Z.eqb_spec (as_long (member_pointer cc B "vfunc2")) 9) as [E2|E2];
    cbn [negb]; [|split; [discriminate | intros H; congruence]].
  destruct (Z.eqb_spec (as_long (member_pointer cc B "vfunc3")) 17) as [E3|E3];
    cbn [negb]; [|split; [discriminate | intros H; congruence]].
  destruct (Z.eqb_spec (as_long (member_pointer cc B "vfunc4")) 25) as [E4|E4];
    cbn [negb]; [|split; [discriminate | intros H; congruence]].
  split; [intros _; congruence | reflexivity].
Qed.

Lemma first_mismatch_position cc :
  first_mismatch cc <> 0 ->
  exists k, nth_error expected_raws k = Some (first_mismatch cc)
    /\ firstn k (checked_raws cc) = firstn k expected_raws
    /\ nth_error (checked_raws cc) k <> Some (first_mismatch cc).
Proof.
  unfold first_mismatch, checked_raws, expected_raws, raw_values. cbn [map].
  destruct (Z.eqb_spec (as_long (member_pointer cc B "vfunc1")) 1) as [E1|E1];
    cbn [negb].
  2:{ intros _. exists 0%nat. cbn. repeat split. congruence. }
  destruct (Z.eqb_spec (as_long (member_pointer cc B "vfunc2")) 9) as [E2|E2];
    cbn [negb].
  2:{ intros _. exists 1%nat. cbn. rewrite E1. repeat split. congruence. }
  destruct (Z.eqb_spec (as_long (member_pointer cc B "vfunc3")) 17) as [E3|E3];
    cbn [negb].
  2:{ intros _. exists 2%nat. cbn. rewrite E1, E2. repeat split. congruence. }
  destruct (Z.eqb_spec (as_long (member_pointer cc B "vfunc4")) 25) as [E4|E4];
    cbn [negb].
  2:{ intros _. exists 3%nat. cbn. rewrite E1, E2, E3. repeat split.
      congruence. }
  intros H. exfalso. apply H. reflexivity.
Qed.

(** X4: [doCheckMethodPoint] returns in every state, and its result does
    not depend on the state: it is 0 exactly when the four pointers to
    the virtual member functions of [B] have the raw values 1, 9, 17 and
    25, and otherwise it is the value expected at the first comparison
    that fails, all earlier comparisons having held. *)
Theorem doCheckMethodPoint_contract cc st :
  exists r st',
    doCheckMethodPoint cc st = Ret r st'
    /\ (r = 0 <-> checked_raws cc = expected_raws)
    /\ (r <> 0 ->
        exists k, nth_error expected_raws k = Some r
          /\ firstn k (checked_raws cc) = firstn k expected_raws
          /\ nth_error (checked_raws cc) k <> Some r)
    /\ (forall st2, result (doCheckMethodPoint cc st2) = Some r).
Proof.
  eexists. eexists. split; [apply doCheckMethodPoint_run|].
  split; [apply first_mismatch_zero|].
  split; [apply first_mismatch_position|].
  intros st2. rewrite doCheckMethodPoint_run. reflexivity.
Qed.

Lemma doCheckMethodPoint_contract_witness :
  exists r st',
    doCheckMethodPoint renumbering_compiler (image 4096 code_of_B 8192)
    = Ret r st'
    /\ (r <> 0 ->
        exists k, nth_error expected_raws k = Some r
          /\ firstn k (checked_raws renumbering_compiler)
             = firstn k expected_raws
          /\ nth_error (checked_raws renumbering_compiler) k <> Some r).
Proof.
  destruct (doCheckMethodPoint_contract renumbering_compiler
              (image 4096 code_of_B 8192)) as [r [st' [Hrun [_ [Hpos _]]]]].
  exists r, st'. split; [exact Hrun | exact Hpos].
Defined.

(** A table is still there after a write to a word that is none of its
    slots. *)
Lemma table_from_write m vptr a v entries : forall i,
  (forall j, i <= j <= i + Z.of_nat (List.length entries) -> vptr + 8 * j <> a) ->
  table_from (write m a v) vptr i entries = table_from m vptr i entries.
Proof.
  induction entries as [|e rest IH]; intros i Hapart;
    cbn [table_from List.length] in *; unfold write at 1.
  - destruct (Z.eqb_spec (vptr + 8 * i) a) as [E|_]; [|reflexivity].
    exfalso. apply (Hapart i); [lia | exact E].
  - destruct (Z.eqb_spec (vptr + 8 * i) a) as [E|_].
    + exfalso. apply (Hapart i); [lia | exact E].
    + rewrite IH; [reflexivity|]. intros j Hj. apply Hapart. lia.
Qed.

(** X5: a freshly built [B] is counted by its table: when the table of
    [B] holds [entries] followed by a zero word and none of its slots is
    one of the two words the object takes from the heap,
    [getVirtualMethodCount] on the result of [new B()] returns the number
    of entries, and the state is the one [new B()] left. *)
Theorem count_of_new_B fuel cc st entries :
  dispatch_table (mem st) (vtable_address cc B) entries = true ->
  Z.of_nat (List.length entries) < 2 ^ 64 ->
  apart (vtable_address cc B) (List.length entries) (brk st) ->
  (List.length entries < fuel)%nat ->
  count_new_B fuel cc st
  = Ret (Z.of_nat (List.length entries)) (after_new_B cc st).
Proof.
  intros Htable Hlen Hapart Hf.
  unfold count_new_B, bind. rewrite new_B_run.
  apply count_of_instance; [|exact Hlen | exact Hf].
  unfold polymorphic_instance. rewrite mem_after_new_B_first.
  unfold dispatch_table, after_new_B in *. cbn [mem].
  rewrite !table_from_write; [exact Htable | |];
    intros j Hj; apply Hapart; lia.
Qed.

Lemma count_of_new_B_witness :
  count_new_B 5 (tagging_compiler vtables_at_4096) (image 4096 code_of_B 8192)
  = Ret 4 (after_new_B (tagging_compiler vtables_at_4096)
             (image 4096 code_of_B 8192)).
Proof.
  apply (count_of_new_B 5 (tagging_compiler vtables_at_4096)
           (image 4096 code_of_B 8192) code_of_B eq_refl eq_refl).
  - intros j Hj.
    change (vtable_address (tagging_compiler vtables_at_4096) B) with 4096.
    change (brk (image 4096 code_of_B 8192)) with 65536.
    change (Z.of_nat (List.length code_of_B)) with 4 in Hj. lia.
  - cbn. lia.
Defined.

(** X6: the check leaves every object that was there alone: it only
    writes the two words of the [B] it builds at the heap top, so an
    object counted as [n] slots before a call of [doCheckMethodPoint] is
    counted as [n] slots after it, provided neither its first word nor a
    slot of its table is one of these two words. *)
Theorem count_survives_check fuel cc t st n :
  getVirtualMethodCount fuel t st = Ret n st ->
  t <> brk st -> t <> brk st + 8 ->
  (forall vptr, mem st t = Some vptr -> apart vptr (Z.to_nat n) (brk st)) ->
  exists r st',
    check_then_count fuel cc t st = Ret (r, n) st'
    /\ result (doCheckMethodPoint cc st) = Some r
    /\ (forall a, a <> brk st -> a <> brk st + 8 -> mem st' a = mem st a).
Proof.
  intros Hc Ht0 Ht8 Hapart.
  pose proof (doCheckMethodPoint_run cc st) as Hrun.
  set (st1 := mkState (mem (after_new_B cc st)) (brk st + 16)
                (out st ++ (if first_mismatch cc =? 0 then report cc else [])))
    in Hrun.
  assert (Hc1 : getVirtualMethodCount fuel t st1 = Ret n st1).
  { apply (count_local fuel t st st1 n Hc).
    - subst st1. cbn [mem]. apply mem_after_new_B_other; assumption.
    - intros vptr j Hv Hj. subst st1. cbn [mem].
      destruct (Hapart vptr Hv j) as [H0 H8]; [lia|].
      apply mem_after_new_B_other; assumption. }
  exists (first_mismatch cc), st1. split; [|split].
  - unfold check_then_count, bind. rewrite Hrun, Hc1. reflexivity.
  - rewrite Hrun. reflexivity.
  - intros a H0 H8. subst st1. cbn [mem].
    apply mem_after_new_B_other; assumption.
Qed.

Lemma count_survives_check_witness :
  exists st',
    check_then_count 5 (tagging_compiler vtables_at_4096) 8192
      (image 4096 code_of_B 8192) = Ret (0, 4) st'.
Proof.
  destruct (count_survives_check 5 (tagging_compiler vtables_at_4096) 8192
              (image 4096 code_of_B 8192) 4 eq_refl)
    as [r [st' [Hrun [Hr _]]]].
  - cbn. lia.
  - cbn. lia.
  - intros vptr Hv j Hj. cbn in Hv. inversion Hv; subst vptr.
    change (brk (image 4096 code_of_B 8192)) with 65536.
    change (Z.of_nat (Z.to_nat 4)) with 4 in Hj. lia.
  - exists st'. rewrite doCheckMethodPoint_run in Hr. cbn in Hr.
    inversion Hr; subst r. exact Hrun.
Defined.

(** ** The non-virtual member functions of [A] and [B] *)

Ltac halves :=
  unfold set_low, set_high in *; unfold low_half, high_half, wrap32s in *;
  change (2 ^ 32) with 4294967296 in *;
  change (2 ^ 31) with 2147483648 in *;
  Z.to_euclidean_division_equations; lia.

Lemma low_set_low w v : low_half (set_low w v) = v mod 2 ^ 32.
Proof. halves. Qed.

Lemma high_set_low w v : high_half (set_low w v) = high_half w.
Proof. halves. Qed.

Lemma low_set_high w v : low_half (set_high w v) = low_half w.
Proof. halves. Qed.

Lemma high_set_high w v : high_half (set_high w v) = v mod 2 ^ 32.
Proof. halves. Qed.

Lemma wrap32s_mod n : wrap32s (n mod 2 ^ 32) = wrap32s n.
Proof. halves. Qed.

Lemma wrap32s_small n : - 2 ^ 31 <= n < 2 ^ 31 -> wrap32s n = n.
Proof. intros H. halves. Qed.

Lemma wrap32s_range n : - 2 ^ 31 <= wrap32s n < 2 ^ 31.
Proof. halves. Qed.

Lemma set_high_set_low w a b :
  set_high (set_low w a) b = set_low (set_high w b) a.
Proof. halves. Qed.

Lemma func1_spec this st :
  func1 this st
  = match mem st (this + 8) with
    | None => Within (Undefined (UnmappedRead (this + 8)))
    | Some w =>
        if wrap32s (low_half w) <? 2 ^ 31 - 1
        then Within (Ret tt (mkState
               (write (mem st) (this + 8)
                  (set_low w (wrap32s (low_half w) + 1)))
               (brk st) (out st)))
        else SignedOverflow
    end.
Proof.
  unfold func1, load, increment, store.
  destruct (mem st (this + 8)) as [w|]; [|reflexivity].
  destruct (wrap32s (low_half w) <? 2 ^ 31 - 1); reflexivity.
Qed.

Lemma func2_spec this st :
  func2 this st
  = match mem st (this + 8) with
    | None => Within (Undefined (UnmappedRead (this + 8)))
    | Some w =>
        if wrap32s (high_half w) <? 2 ^ 31 - 1
        then Within (Ret tt (mkState
               (write (mem st) (this + 8)
                  (set_high w (wrap32s (high_half w) + 1)))
               (brk st) (out st)))
        else SignedOverflow
    end.
Proof.
  unfold func2, load, increment, store.
  destruct (mem st (this + 8)) as [w|]; [|reflexivity].
  destruct (wrap32s (high_half w) <? 2 ^ 31 - 1); reflexivity.
Qed.

Lemma read_n1_inv this st n :
  result (read_n1 this st) = Some n ->
  exists w, mem st (this + 8) = Some w /\ n = wrap32s (low_half w).
Proof.
  unfold read_n1, bind, load, ret.
  destruct (mem st (this + 8)) as [w|]; cbn [result]; [|discriminate].
  intros H. exists w. split; [reflexivity | congruence].
Qed.

Lemma read_n2_inv this st n :
  result (read_n2 this st) = Some n ->
  exists w, mem st (this + 8) = Some w /\ n = wrap32s (high_half w).
Proof.
  unfold read_n2, bind, load, ret.
  destruct (mem st (this + 8)) as [w|]; cbn [result]; [|discriminate].
  intros H. exists w. split; [reflexivity | congruence].
Qed.

Lemma read_n1_at this st w :
  mem st (this + 8) = Some w ->
  result (read_n1 this st) = Some (wrap32s (low_half w)).
Proof. intros H. unfold read_n1, bind, load, ret. rewrite H. reflexivity. Qed.

Lemma read_n2_at this st w :
  mem st (this + 8) = Some w ->
  result (read_n2 this st) = Some (wrap32s (high_half w)).
Proof. intros H. unfold read_n2, bind, load, ret. rewrite H. reflexivity. Qed.

Lemma write_same m a v : write m a v a = Some v.
Proof. unfold write. rewrite Z.eqb_refl. reflexivity. Qed.

Lemma write_other m a v a' : a' <> a -> write m a v a' = m a'.
Proof.
  intros H. unfold write. destruct (Z.eqb_spec a' a); [contradiction | reflexivity].
Qed.

Lemma read_n1_stored this m b o w :
  result (read_n1 this (mkState (write m (this + 8) w) b o))
  = Some (wrap32s (low_half w)).
Proof. apply read_n1_at. cbn [mem]. apply write_same. Qed.

Lemma read_n2_stored this m b o w :
  result (read_n2 this (mkState (write m (this + 8) w) b o))
  = Some (wrap32s (high_half w)).
Proof. apply read_n2_at. cbn [mem]. apply write_same. Qed.

(** X8: [A::func1] adds one to [n1] and touches nothing else: when [n1]
    is below the largest [int], the call returns, [n1] reads one more,
    [n2], which shares its word, reads as before, every other word (the
    table pointer among them), the heap top and the output are as they
    were; when [n1] is the largest [int] the increment overflows. *)
Theorem func1_adds_one_to_n1 this st n1 :
  result (read_n1 this st) = Some n1 ->
  (n1 < 2 ^ 31 - 1 ->
   exists st',
     func1 this st = Within (Ret tt st')
     /\ result (read_n1 this st') = Some (n1 + 1)
     /\ result (read_n2 this st') = result (read_n2 this st)
     /\ (forall a, a <> this + 8 -> mem st' a = mem st a)
     /\ brk st' = brk st /\ out st' = out st)
  /\ (n1 = 2 ^ 31 - 1 -> func1 this st = SignedOverflow).
Proof.
  intros Hn. apply read_n1_inv in Hn. destruct Hn as [w [Hw ->]].
  rewrite func1_spec, Hw. split.
  - intros Hlt. apply Z.ltb_lt in Hlt. rewrite Hlt.
    apply Z.ltb_lt in Hlt.
    eexists. split; [reflexivity|]. cbn [mem brk out].
    split; [|split; [|split; [|split; reflexivity]]].
    + rewrite read_n1_stored.
      rewrite low_set_low, wrap32s_mod. f_equal.
      apply wrap32s_small. pose proof (wrap32s_range (low_half w)). lia.
    + rewrite read_n2_stored, (read_n2_at _ _ _ Hw).
      rewrite high_set_low. reflexivity.
    + intros a Ha. apply write_other. exact Ha.
  - intros ->. reflexivity.
Qed.

Lemma func1_adds_one_to_n1_witness :
  exists st',
    func1 65536 (after_new_B (tagging_compiler vtables_at_4096)
                   (image 4096 code_of_B 8192)) = Within (Ret tt st')
    /\ result (read_n1 65536 st') = Some (1 + 1)
    /\ result (read_n2 65536 st') = Some 2.
Proof.
  destruct (proj1 (func1_adds_one_to_n1 65536
                     (after_new_B (tagging_compiler vtables_at_4096)
                        (image 4096 code_of_B 8192)) 1 eq_refl))
    as [st' [Hrun [H1 [H2 _]]]]; [lia|].
  exists st'. split; [exact Hrun|]. split; [exact H1|].
  rewrite H2. reflexivity.
Defined.

(** X9: [B::func2] adds one to [n2] and touches nothing else: when [n2]
    is below the largest [int], the call returns, [n2] reads one more,
    [n1] reads as before, every other word, the heap top and the output
    are as they were; when [n2] is the largest [int] the increment
    overflows. *)
Theorem func2_adds_one_to_n2 this st n2 :
  result (read_n2 this st) = Some n2 ->
  (n2 < 2 ^ 31 - 1 ->
   exists st',
     func2 this st = Within (Ret tt st')
     /\ result (read_n2 this st') = Some (n2 + 1)
     /\ result (read_n1 this st') = result (read_n1 this st)
     /\ (forall a, a <> this + 8 -> mem st' a = mem st a)
     /\ brk st' = brk st /\ out st' = out st)
  /\ (n2 = 2 ^ 31 - 1 -> func2 this st = SignedOverflow).
Proof.
  intros Hn. apply read_n2_inv in Hn. destruct Hn as [w [Hw ->]].
  rewrite func2_spec, Hw. split.
  - intros Hlt. apply Z.ltb_lt in Hlt. rewrite Hlt.
    apply Z.ltb_lt in Hlt.
    eexists. split; [reflexivity|]. cbn [mem brk out].
    split; [|split; [|split; [|split; reflexivity]]].
    + rewrite read_n2_stored.
      rewrite high_set_high, wrap32s_mod. f_equal.
      apply wrap32s_small. pose proof (wrap32s_range (high_half w)). lia.
    + rewrite read_n1_stored, (read_n1_at _ _ _ Hw).
      rewrite low_set_high. reflexivity.
    + intros a Ha. apply write_other. exact Ha.
  - intros ->. reflexivity.
Qed.

Lemma func2_adds_one_to_n2_witness :
  exists st',
    func2 65536 (after_new_B (tagging_compiler vtables_at_4096)
                   (image 4096 code_of_B 8192)) = Within (Ret tt st')
    /\ result (read_n2 65536 st') = Some (2 + 1)
    /\ result (read_n1 65536 st') = Some 1.
Proof.
  destruct (proj1 (func2_adds_one_to_n2 65536
                     (after_new_B (tagging_compiler vtables_at_4096)
                        (image 4096 code_of_B 8192)) 2 eq_refl))
    as [st' [Hrun [H2 [H1 _]]]]; [lia|].
  exists st'. split; [exact Hrun|]. split; [exact H2|].
  rewrite H1. reflexivity.
Defined.

Lemma func1_then_func2 this st :
  and_then (func1 this) (func2 this) st
  = match mem st (this + 8) with
    | None => Within (Undefined (UnmappedRead (this + 8)))
    | Some w =>
        if wrap32s (low_half w) <? 2 ^ 31 - 1
        then if wrap32s (high_half w) <? 2 ^ 31 - 1
             then Within (Ret tt (mkState
                    (write (write (mem st) (this + 8)
                              (set_low w (wrap32s (low_half w) + 1)))
                       (this + 8)
                       (set_high (set_low w (wrap32s (low_half w) + 1))
                                 (wrap32s (high_half w) + 1)))
                    (brk st) (out st)))
             else SignedOverflow
        else SignedOverflow
    end.
Proof.
  unfold and_then. rewrite func1_spec.
  destruct (mem st (this + 8)) as [w|]; [|reflexivity].
  destruct (wrap32s (low_half w) <? 2 ^ 31 - 1); [|reflexivity].
  rewrite func2_spec. cbn [mem brk out].
  rewrite write_same, high_set_low.
  destruct (wrap32s (high_half w) <? 2 ^ 31 - 1); reflexivity.
Qed.

Lemma func2_then_func1 this st :
  and_then (func2 this) (func1 this) st
  = match mem st (this + 8) with
    | None => Within (Undefined (UnmappedRead (this + 8)))
    | Some w =>
        if wrap32s (high_half w) <? 2 ^ 31 - 1
        then if wrap32s (low_half w) <? 2 ^ 31 - 1
             then Within (Ret tt (mkState
                    (write (write (mem st) (this + 8)
                              (set_high w (wrap32s (high_half w) + 1)))
                       (this + 8)
                       (set_low (set_high w (wrap32s (high_half w) + 1))
                                (wrap32s (low_half w) + 1)))
                    (brk st) (out st)))
             else SignedOverflow
        else SignedOverflow
    end.
Proof.
  unfold and_then. rewrite func2_spec.
  destruct (mem st (this + 8)) as [w|]; [|reflexivity].
  destruct (wrap32s (high_half w) <? 2 ^ 31 - 1); [|reflexivity].
  rewrite func1_spec. cbn [mem brk out].
  rewrite write_same, low_set_high.
  destruct (wrap32s (low_half w) <? 2 ^ 31 - 1); reflexivity.
Qed.

(** X10: [func1] and [func2] can be called in either order: although
    [n1] and [n2] share one word, [func1] then [func2] returns exactly
    when [func2] then [func1] does, and the two runs end with the same
    memory contents, heap top and output. *)
Theorem func1_func2_commute this st :
  (forall s12, ends_in (and_then (func1 this) (func2 this) st) = Some s12 ->
     exists s21,
       ends_in (and_then (func2 this) (func1 this) st) = Some s21
       /\ same_state s12 s21)
  /\ (forall s21, ends_in (and_then (func2 this) (func1 this) st) = Some s21 ->
     exists s12,
       ends_in (and_then (func1 this) (func2 this) st) = Some s12
       /\ same_state s12 s21).
Proof.
  rewrite func1_then_func2, func2_then_func1.
  destruct (mem st (this + 8)) as [w|]; [|split; intros s H; discriminate H].
  destruct (wrap32s (low_half w) <? 2 ^ 31 - 1);
    destruct (wrap32s (high_half w) <? 2 ^ 31 - 1);
    try (split; intros s H; discriminate H).
  cbn [ends_in].
  assert (Hsame : forall a,
    write (write (mem st) (this + 8) (set_low w (wrap32s (low_half w) + 1)))
      (this + 8)
      (set_high (set_low w (wrap32s (low_half w) + 1))
         (wrap32s (high_half w) + 1)) a
    = write (write (mem st) (this + 8) (set_high w (wrap32s (high_half w) + 1)))
        (this + 8)
        (set_low (set_high w (wrap32s (high_half w) + 1))
           (wrap32s (low_half w) + 1)) a).
  { intros a. unfold write. rewrite set_high_set_low.
    destruct (a =? this + 8); reflexivity. }
  split; intros s H; injection H as <-; eexists; (split; [reflexivity|]);
    (split; [|split; reflexivity]); cbn [mem]; intros a;
    first [apply Hsame | symmetry; apply Hsame].
Qed.

Lemma func1_func2_commute_witness :
  exists s21,
    ends_in (and_then (func2 65536) (func1 65536)
               (after_new_B (tagging_compiler vtables_at_4096)
                  (image 4096 code_of_B 8192))) = Some s21
    /\ mem s21 65544 = Some (2 + 3 * 2 ^ 32).
Proof.
  destruct (proj1 (func1_func2_commute 65536
                     (after_new_B (tagging_compiler vtables_at_4096)
                        (image 4096 code_of_B 8192))) _ eq_refl)
    as [s21 [Hrun [Hmem _]]].
  exists s21. split; [exact Hrun|]. rewrite <- Hmem. reflexivity.
Defined.

(** X11: the count of an object is the same after [func1] and after
    [func2]: the calls write the second word of the object only, so when
    no slot of the table is that word, an object counted as [n] slots is
    counted as [n] slots after either call. *)
Theorem count_survives_member_calls fuel t st n :
  getVirtualMethodCount fuel t st = Ret n st ->
  (forall vptr j, mem st t = Some vptr -> 0 <= j <= n ->
     vptr + 8 * j <> t + 8) ->
  (forall st', ends_in (func1 t st) = Some st' ->
     getVirtualMethodCount fuel t st' = Ret n st')
  /\ (forall st', ends_in (func2 t st) = Some st' ->
     getVirtualMethodCount fuel t st' = Ret n st').
Proof.
  intros Hc Hapart.
  assert (Hkeep : forall w b o,
    getVirtualMethodCount fuel t (mkState (write (mem st) (t + 8) w) b o)
    = Ret n (mkState (write (mem st) (t + 8) w) b o)).
  { intros w b o. apply (count_local fuel t st _ n Hc); cbn [mem].
    - apply write_other. lia.
    - intros vptr j Hv Hj. apply write_other. apply (Hapart vptr j Hv Hj). }
  split; intros st'.
  - rewrite func1_spec. destruct (mem st (t + 8)) as [w|]; [|discriminate].
    destruct (wrap32s (low_half w) <? 2 ^ 31 - 1); [|discriminate].
    cbn [ends_in]. intros H. injection H as <-. apply Hkeep.
  - rewrite func2_spec. destruct (mem st (t + 8)) as [w|]; [|discriminate].
    destruct (wrap32s (high_half w) <? 2 ^ 31 - 1); [|discriminate].
    cbn [ends_in]. intros H. injection H as <-. apply Hkeep.
Qed.

Lemma count_survives_member_calls_witness :
  exists st',
    ends_in (func1 65536 (after_new_B (tagging_compiler vtables_at_4096)
                            (image 4096 code_of_B 8192))) = Some st'
    /\ getVirtualMethodCount 5 65536 st' = Ret 4 st'.
Proof.
  assert (Hapart : forall vptr j,
    mem (after_new_B (tagging_compiler vtables_at_4096)
           (image 4096 code_of_B 8192)) 65536 = Some vptr ->
    0 <= j <= 4 -> vptr + 8 * j <> 65536 + 8).
  { intros vptr j Hv Hj.
    assert (E : vptr = 4096) by (vm_compute in Hv; congruence).
    lia. }
  eexists. split; [reflexivity|].
  apply (proj1 (count_survives_member_calls 5 65536
                  (after_new_B (tagging_compiler vtables_at_4096)
                     (image 4096 code_of_B 8192)) 4 eq_refl Hapart)).
  reflexivity.
Defined.

(** ** Repeated calls of the check *)

Lemma spaced_above lo ps : spaced lo ps -> forall q, In q ps -> lo <= q.
Proof.
  revert lo. induction ps as [|p rest IH]; cbn [spaced In]; intros lo H q Hq.
  - contradiction.
  - destruct H as [Hp Hrest]. destruct Hq as [<-|Hq]; [exact Hp|].
    specialize (IH _ Hrest q Hq). lia.
Qed.

Lemma spaced_blocks_apart lo ps : spaced lo ps -> blocks_apart ps.
Proof.
  revert lo. induction ps as [|p rest IH]; cbn [spaced]; intros lo H.
  - intros [|i] j a b Ha; discriminate Ha.
  - destruct H as [Hp Hrest].
    pose proof (spaced_above _ _ Hrest) as Habove.
    intros [|i] [|j] a b Ha Hb Hne; cbn [nth_error] in Ha, Hb.
    + contradiction.
    + injection Ha as <-. left. apply Habove.
      apply (nth_error_In _ _ Hb).
    + injection Hb as <-. right. apply Habove.
      apply (nth_error_In _ _ Ha).
    + apply (IH _ Hrest i j a b Ha Hb). congruence.
Qed.

(** What [n] calls in a row do, with the placement that the heap of this
    model gives the objects. *)
Lemma repeat_check_run n cc : forall st,
  exists tr st',
    repeat_check n cc st = Ret tr st'
    /\ List.length tr = n
    /\ spaced (brk st) (map fst tr)
    /\ (forall p r, In (p, r) tr ->
          r = first_mismatch cc
          /\ mem st' p = Some (vtable_address cc B)
          /\ mem st' (p + 8) = Some (1 + 2 * 2 ^ 32))
    /\ (forall a, (forall p, In p (map fst tr) -> a <> p /\ a <> p + 8) ->
          mem st' a = mem st a).
Proof.
  induction n as [|n IH]; intros st.
  - exists [], st. cbn. repeat split; try reflexivity; contradiction.
  - pose proof (doCheckMethodPoint_run cc st) as Hrun.
    set (st1 := mkState (mem (after_new_B cc st)) (brk st + 16)
                  (out st ++ (if first_mismatch cc =? 0 then report cc else [])))
      in Hrun.
    destruct (IH st1) as [tr [st' [Htr [Hlen [Hsp [Hobj Hrest]]]]]].
    assert (Hlater : forall q, In q (map fst tr) -> brk st + 16 <= q).
    { intros q Hq. apply (spaced_above _ _ Hsp q Hq). }
    exists ((brk st, first_mismatch cc) :: tr), st'.
    split; [|split; [|split; [|split]]].
    + cbn [repeat_check]. unfold bind at 1, heap_top.
      unfold bind at 1. rewrite Hrun.
      unfold bind at 1. rewrite Htr. reflexivity.
    + cbn. rewrite Hlen. reflexivity.
    + cbn [map fst spaced]. split; [lia | exact Hsp].
    + intros p r [E|Hin].
      * injection E as <- <-. split; [reflexivity|].
        rewrite !Hrest.
        -- subst st1. cbn [mem]. split; [apply mem_after_new_B_first|].
           rewrite mem_after_new_B, Z.eqb_refl. reflexivity.
        -- intros q Hq. specialize (Hlater q Hq). lia.
        -- intros q Hq. specialize (Hlater q Hq). lia.
      * apply Hobj. exact Hin.
    + intros a Ha. rewrite Hrest.
      * subst st1. cbn [mem]. apply mem_after_new_B_other;
          apply (Ha (brk st)); left; reflexivity.
      * intros q Hq. apply Ha. right. exact Hq.
Qed.

(** X7: [doCheckMethodPoint] never releases the [B] it builds: after [n]
    calls in a row the [n] objects built by the calls occupy blocks that
    do not overlap, each of them still has its table pointer and its
    members [n1 = 1] and [n2 = 2], no word outside these objects was
    written, and every call gave the same result. *)
Theorem repeat_check_keeps_every_object n cc st :
  exists tr st',
    repeat_check n cc st = Ret tr st'
    /\ List.length tr = n
    /\ blocks_apart (map fst tr)
    /\ (forall p r, In (p, r) tr ->
          result (doCheckMethodPoint cc st) = Some r
          /\ mem st' p = Some (vtable_address cc B)
          /\ result (read_n1 p st') = Some 1
          /\ result (read_n2 p st') = Some 2)
    /\ (forall a, (forall p, In p (map fst tr) -> a <> p /\ a <> p + 8) ->
          mem st' a = mem st a).
Proof.
  destruct (repeat_check_run n cc st)
    as [tr [st' [Htr [Hlen [Hsp [Hobj Hrest]]]]]].
  exists tr, st'. split; [exact Htr|]. split; [exact Hlen|].
  split; [apply (spaced_blocks_apart _ _ Hsp)|]. split; [|exact Hrest].
  intros p r Hin. destruct (Hobj p r Hin) as [-> [Hv Hw]].
  split; [rewrite doCheckMethodPoint_run; reflexivity|].
  split; [exact Hv|].
  rewrite (read_n1_at _ _ _ Hw), (read_n2_at _ _ _ Hw).
  split; reflexivity.
Qed.

Lemma repeat_check_keeps_every_object_witness :
  exists tr st',
    repeat_check 3 (tagging_compiler vtables_at_4096)
      (image 4096 code_of_B 8192) = Ret tr st'
    /\ List.length tr = 3%nat
    /\ blocks_apart (map fst tr).
Proof.
  destruct (repeat_check_keeps_every_object 3
              (tagging_compiler vtables_at_4096) (image 4096 code_of_B 8192))
    as [tr [st' [Hrun [Hlen [Hapart _]]]]].
  exists tr, st'. split; [exact Hrun|]. split; [exact Hlen | exact Hapart].
Defined.
